(** * XboxTests: the Azure DevOps test-case synchronisation script and the
      retry helper, embedded in Rocq

    Sources embedded here:
    - [tests/TestData/AzureDevOpsClient.mjs]: the client class
      ([_loadConfig], [createTestCase], [addToSuite]) and the script that
      follows it ([xmlEscape], [buildStepsXml], [buildTestCaseBody], the
      main loop, the summary and the exit code);
    - the helper module with [retryAction].

    JavaScript strings are modelled as [string] (sequences of code units
    taken as [ascii]), numbers that the script only counts with or compares
    to zero as [nat] or [Z]. A field of type [option] is [None] when the
    property is absent from the JSON object ([undefined]); the test-case
    file is taken to follow its data model (strings, numbers, arrays of
    strings and of steps), so a JSON [null] in the place of a string or of
    a record is not a value of these types. *)

From stdpp Require Import base option list strings gmap.
From Stdlib Require Import Ascii String ZArith Lia DecimalString.

Local Open Scope string_scope.
Local Open Scope list_scope.

(* ===================================================================== *)
(** ** JavaScript values and strings *)
(* ===================================================================== *)

(** The double quote and the line feed, as one-character strings. *)
Definition dquote : string := String "034"%char "".
Definition newline : string := String "010"%char "".

(** Truthiness of an optional string: [undefined] and the empty string
    are falsy. *)
Definition truthy_str (v : option string) : bool :=
  match v with
  | Some (String _ _) => true
  | _ => false
  end.

(** Truthiness of an optional number: [undefined] and [0] are falsy. *)
Definition truthy_num (v : option Z) : bool :=
  match v with
  | Some z => negb (z =? 0)%Z
  | None => false
  end.

(** Template-literal rendering of a non-negative integer. *)
Definition string_of_nat (n : nat) : string :=
  NilEmpty.string_of_uint (Nat.to_uint n).

(** [Array.prototype.join] on an array of strings. *)
Definition join (sep : string) (l : list string) : string :=
  String.concat sep l.

(** [str.replace(/c/g, r)]: every occurrence of the character [c] is
    replaced by [r]; the scan does not revisit the inserted text. *)
Fixpoint replaceAll (c : ascii) (r : string) (s : string) : string :=
  match s with
  | EmptyString => EmptyString
  | String a t =>
      if Ascii.eqb a c then r +:+ replaceAll c r t
      else String a (replaceAll c r t)
  end.

(* ===================================================================== *)
(** ** XML escaping and the step markup *)
(* ===================================================================== *)

(** [function xmlEscape(str = "")]: the default applies to [undefined]. *)
Definition xmlEscape (str : option string) : string :=
  let str := default "" str in
  replaceAll ">" "&gt;" (replaceAll "<" "&lt;" (replaceAll "&" "&amp;" str)).

(** A step of a test-case definition; a field absent from the JSON object
    reads as [undefined], for which the default parameter of [xmlEscape]
    stands in. *)
Record Step := mkStep {
  action : option string;
  expected : option string
}.

(** The template literal of [buildStepsXml] for the step at index [i]. *)
Definition stepXml (i : nat) (s : Step) : string :=
  "<step id=" +:+ dquote +:+ string_of_nat (i + 1) +:+ dquote
    +:+ " type=" +:+ dquote +:+ "ActionStep" +:+ dquote +:+ ">" +:+ newline
  +:+ "  <parameterizedString isformatted=" +:+ dquote +:+ "true" +:+ dquote +:+ ">"
    +:+ xmlEscape (action s) +:+ "</parameterizedString>" +:+ newline
  +:+ "  <parameterizedString isformatted=" +:+ dquote +:+ "true" +:+ dquote +:+ ">"
    +:+ xmlEscape (expected s) +:+ "</parameterizedString>" +:+ newline
  +:+ "</step>".

Definition buildStepsXml (steps : list Step) : string :=
  let inner := join "" (imap stepXml steps) in
  "<steps id=" +:+ dquote +:+ "0" +:+ dquote +:+ ">" +:+ inner +:+ "</steps>".

(* ===================================================================== *)
(** ** Test-case definitions and the field-patch body *)
(* ===================================================================== *)

(** A test-case definition as read from the JSON file. Every field may be
    absent ([undefined]); [priority] is a JSON number, of which the script
    only tests truthiness. [steps = None] also stands for a value that is
    not an array. *)
Record TestCase := mkTestCase {
  id : option string;
  title : option string;
  priority : option Z;
  category : option string;
  tags : option (list string);
  steps : option (list Step)
}.

(** Values placed in a patch operation. *)
Inductive FieldValue :=
| VUndefined
| VString (s : string)
| VNumber (z : Z).

Definition value_of_string (v : option string) : FieldValue :=
  match v with
  | Some s => VString s
  | None => VUndefined
  end.

Record PatchOp := mkPatchOp {
  op : string;
  path : string;
  value : FieldValue
}.

(** The array literal of [buildTestCaseBody] before [.filter(Boolean)]:
    the explicit tags, then the two optional synthesized tags ([null] when
    the guard is falsy). *)
Definition tagCandidates (tc : TestCase) : list (option string) :=
  (Some <$> default [] (tags tc))
  ++ [ if truthy_str (id tc) then Some ("LogicalID:" +:+ default "" (id tc)) else None;
       if truthy_str (category tc) then Some ("Category:" +:+ default "" (category tc)) else None ].

(** [.filter(Boolean)] keeps the truthy elements. *)
Definition filterBoolean (l : list (option string)) : list string :=
  omap (fun v => if truthy_str v then v else None) l.

Definition tagParts (tc : TestCase) : list string :=
  filterBoolean (tagCandidates tc).

Definition buildTags (tc : TestCase) : string :=
  join "; " (tagParts tc).

Definition priorityPath : string := "/fields/Microsoft.VSTS.Common.Priority".

Definition buildTestCaseBody (tc : TestCase) : list PatchOp :=
  let stepsXml := buildStepsXml (default [] (steps tc)) in
  let tags := buildTags tc in
  let body :=
    [ mkPatchOp "add" "/fields/System.Title" (value_of_string (title tc));
      mkPatchOp "add" "/fields/Microsoft.VSTS.TCM.Steps" (VString stepsXml);
      mkPatchOp "add" "/fields/System.Tags" (VString tags) ] in
  if truthy_num (priority tc)
  then body ++ [ mkPatchOp "add" priorityPath (VNumber (default 0%Z (priority tc))) ]
  else body.

(* ===================================================================== *)
(** ** The remote system, exceptions and the client *)
(* ===================================================================== *)

(** A thrown [Error]; the script only reads its [message]. *)
Record Error := mkError { message : string }.

(** The tracking system behind [axios.post]. [W] is the state of the
    outside world; a request either throws or answers. For the work-item
    endpoint the answer is [response.data.id]. URLs and headers are fixed
    by the configuration and are not part of the model. *)
Record Remote (W : Type) := mkRemote {
  post_workitem : list PatchOp -> W -> (Error + Z) * W;
  post_suite : Z -> W -> (Error + unit) * W
}.
Arguments mkRemote {W} _ _.
Arguments post_workitem {W} _ _ _.
Arguments post_suite {W} _ _ _.

(** The requests issued so far, oldest first. *)
Inductive RemoteCall :=
| CreateCall (body : list PatchOp)
| SuiteCall (workItemId : Z).

Record ClientState (W : Type) := mkClientState {
  world : W;
  calls : list RemoteCall
}.
Arguments mkClientState {W} _ _.
Arguments world {W} _.
Arguments calls {W} _.

(** Computations that read and change the client state and may throw. *)
Definition M (W A : Type) : Type := ClientState W -> (Error + A) * ClientState W.

Definition ret {W A} (a : A) : M W A := fun st => (inr a, st).

Definition throw {W A} (e : Error) : M W A := fun st => (inl e, st).

Definition bind {W A B} (m : M W A) (k : A -> M W B) : M W B :=
  fun st =>
    match m st with
    | (inl e, st') => (inl e, st')
    | (inr a, st') => k a st'
    end.

(** [try { m } catch (error) { h error }]. *)
Definition try_catch {W A} (m : M W A) (h : Error -> M W A) : M W A :=
  fun st =>
    match m st with
    | (inl e, st') => h e st'
    | (inr a, st') => (inr a, st')
    end.

Declare Scope sync_scope.
Delimit Scope sync_scope with sync.
Notation "x <- m ;; k" := (bind m (fun x => k))
  (at level 100, m at next level, right associativity) : sync_scope.

(** The two [axios.post] requests. *)
Definition axios_post_workitem {W} (R : Remote W) (body : list PatchOp) : M W Z :=
  fun st =>
    let '(r, w) := post_workitem R body (world st) in
    (r, mkClientState w (calls st ++ [CreateCall body])).

Definition axios_post_suite {W} (R : Remote W) (workItemId : Z) : M W unit :=
  fun st =>
    let '(r, w) := post_suite R workItemId (world st) in
    (r, mkClientState w (calls st ++ [SuiteCall workItemId])).

(** [AzureDevOpsClient.createTestCase]: the handler logs and rethrows. *)
Definition createTestCase {W} (R : Remote W) (testCase : list PatchOp) : M W Z :=
  try_catch (axios_post_workitem R testCase) (fun error => throw error).

(** [AzureDevOpsClient.addToSuite]. *)
Definition addToSuite {W} (R : Remote W) (workItemId : Z) : M W unit :=
  try_catch (axios_post_suite R workItemId) (fun error => throw error).

(* ===================================================================== *)
(** ** Configuration *)
(* ===================================================================== *)

(** A configuration value as [nconf.get] returns it: what the JSON file,
    the command line or the environment holds. Numbers are integers here;
    [JObject] stands for any object or array. *)
Inductive JsValue :=
| JNull
| JBool (b : bool)
| JNum (z : Z)
| JStr (s : string)
| JObject.

(** Truthiness of a value that may be [undefined]: falsy are [undefined],
    [null], [false], [0] and the empty string. *)
Definition truthy_val (v : option JsValue) : bool :=
  match v with
  | Some (JBool b) => b
  | Some (JNum z) => negb (z =? 0)%Z
  | Some (JStr (String _ _)) => true
  | Some JObject => true
  | _ => false
  end.

(** What [findup] and [nconf] see. [ancestors] are the working directory
    and its parents, nearest first; [file_exists] tells which paths exist;
    [argv], [env] and [file_content] are the three stores of
    [nconf.argv().env().file(configPath)]; reading the file throws when it
    cannot be parsed. *)
Record ConfigEnv := mkConfigEnv {
  ancestors : list string;
  file_exists : string -> bool;
  argv : gmap string JsValue;
  env : gmap string JsValue;
  file_content : string -> Error + gmap string JsValue
}.

(** [findup(name)]: the first ancestor directory that holds [name], as the
    path of that file, or [null]. *)
Definition findup (ce : ConfigEnv) (name : string) : option string :=
  List.find (file_exists ce) ((fun dir => dir +:+ "/" +:+ name) <$> ancestors ce).

(** [nconf.get(key)] after the three stores are stacked, [file] being what
    was read from the configuration file: an earlier store wins. *)
Definition nconf_get (ce : ConfigEnv) (file : gmap string JsValue) (key : string)
    : option JsValue :=
  (argv ce ∪ env ce ∪ file) !! key.

(** The object [requiredFields], which becomes [this.config]. *)
Record Config := mkConfig {
  keyVaultUrl : option JsValue;
  azureDevOpsPatSecretName : option JsValue;
  azureDevOpsOrgUrl : option JsValue;
  azureDevOpsProject : option JsValue;
  azureDevOpsPlanId : option JsValue;
  azureDevOpsSuiteId : option JsValue
}.

(** [Object.entries(requiredFields)], in insertion order. *)
Definition entries (c : Config) : list (string * option JsValue) :=
  [ ("keyVaultUrl", keyVaultUrl c);
    ("azureDevOpsPatSecretName", azureDevOpsPatSecretName c);
    ("azureDevOpsOrgUrl", azureDevOpsOrgUrl c);
    ("azureDevOpsProject", azureDevOpsProject c);
    ("azureDevOpsPlanId", azureDevOpsPlanId c);
    ("azureDevOpsSuiteId", azureDevOpsSuiteId c) ].

(** The validation loop: the first falsy field throws. *)
Fixpoint validateFields (l : list (string * option JsValue)) : Error + unit :=
  match l with
  | [] => inr tt
  | (field, v) :: rest =>
      if negb (truthy_val v)
      then inl (mkError ("Missing required configuration: " +:+ field))
      else validateFields rest
  end.

(** [AzureDevOpsClient._loadConfig]; its handler logs and rethrows. *)
Definition _loadConfig (ce : ConfigEnv) : Error + Config :=
  let configPath := findup ce "config.json" in
  if negb (truthy_str configPath)
  then inl (mkError "Cannot find the config file config.json")
  else
    match file_content ce (default "" configPath) with
    | inl e => inl e
    | inr file =>
        let get := nconf_get ce file in
        let requiredFields :=
          mkConfig (get "keyVaultUrl") (get "azureDevOpsPatSecretName")
                   (get "azureDevOpsOrgUrl") (get "azureDevOpsProject")
                   (get "azureDevOpsPlanId") (get "azureDevOpsSuiteId") in
        match validateFields (entries requiredFields) with
        | inl e => inl e
        | inr _ => inr requiredFields
        end
    end.

(** The six required field names. *)
Definition requiredNames : list string :=
  [ "keyVaultUrl"; "azureDevOpsPatSecretName"; "azureDevOpsOrgUrl";
    "azureDevOpsProject"; "azureDevOpsPlanId"; "azureDevOpsSuiteId" ].

(** A field is missing ([undefined] or [null]) or empty (the empty string)
    in the stacked stores. *)
Definition missing_or_empty (ce : ConfigEnv) (file : gmap string JsValue) (key : string)
    : Prop :=
  nconf_get ce file key = None \/ nconf_get ce file key = Some JNull
  \/ nconf_get ce file key = Some (JStr "").

(* ===================================================================== *)
(** ** The script: main loop, summary and exit code *)
(* ===================================================================== *)

(** An element of [failedTestCases]. *)
Record FailedEntry := mkFailedEntry {
  failed_id : option string;
  failed_title : option string;
  reason : string
}.

(** The three local variables of the loop. *)
Record Tally := mkTally {
  successCount : nat;
  failedCount : nat;
  failedTestCases : list FailedEntry
}.

Definition tally0 : Tally := mkTally 0 0 [].

(** The basic validation guard:
    [!tc.title || !Array.isArray(tc.steps) || tc.steps.length === 0]. *)
Definition invalid (tc : TestCase) : bool :=
  negb (truthy_str (title tc))
  || match steps tc with
     | None => true
     | Some l => (List.length l =? 0)%nat
     end.

Definition recordFailure (tc : TestCase) (why : string) (t : Tally) : Tally :=
  mkTally (successCount t) (failedCount t + 1)
          (failedTestCases t ++ [mkFailedEntry (id tc) (title tc) why]).

Definition recordSuccess (t : Tally) : Tally :=
  mkTally (successCount t + 1) (failedCount t) (failedTestCases t).

Local Open Scope sync_scope.

(** One iteration of [for (const tc of payload.testCases)]. *)
Definition processTestCase {W} (R : Remote W) (tc : TestCase) (t : Tally) : M W Tally :=
  if invalid tc
  then ret (recordFailure tc "Missing title or steps" t)
  else
    try_catch
      (let testCaseBody := buildTestCaseBody tc in
       workItemId <- createTestCase R testCaseBody ;;
       _ <- addToSuite R workItemId ;;
       ret (recordSuccess t))
      (fun error => ret (recordFailure tc (message error) t)).

(** The loop; an exception that escapes an iteration ends it. *)
Fixpoint forTestCases {W} (R : Remote W) (testCases : list TestCase) (t : Tally) : M W Tally :=
  match testCases with
  | [] => ret t
  | tc :: rest =>
      t' <- processTestCase R tc t ;;
      forTestCases R rest t'
  end.

(** What the run is started with, besides the remote system.
    [secret] is the outcome of [secretClient.getSecret(...)] followed by
    [?.value]; [payload] is the outcome of reading and parsing the JSON
    file, with [None] for a document whose [testCases] is not an array. *)
Record RunEnv := mkRunEnv {
  config_env : ConfigEnv;
  secret : Error + option string;
  payload : Error + option (list TestCase)
}.

(** [AzureDevOpsClient._fetchSecrets]. *)
Definition _fetchSecrets (re : RunEnv) : Error + string :=
  match secret re with
  | inl e => inl e
  | inr pat =>
      if negb (truthy_str pat)
      then inl (mkError "Failed to retrieve Azure DevOps PAT from Key Vault")
      else inr (default "" pat)
  end.

(** [AzureDevOpsClient.initialize]. *)
Definition initialize {W} (re : RunEnv) : M W (Config * string) :=
  match _loadConfig (config_env re) with
  | inl e => throw e
  | inr cfg =>
      match _fetchSecrets re with
      | inl e => throw e
      | inr pat => ret (cfg, pat)
      end
  end.

(** The lines of the execution summary. *)
Record Summary := mkSummary {
  total : nat;
  created : nat;
  failed : nat;
  listed : list FailedEntry
}.

(** How the process ends: the exit code and, when the loop was reached,
    the summary that was printed. *)
Record Exit := mkExit {
  exit_code : Z;
  summary : option Summary
}.

(** The body of the outer [try]. *)
Definition mainBody {W} (R : Remote W) (re : RunEnv) : M W Exit :=
  _ <- initialize re ;;
  match payload re with
  | inl _ => ret (mkExit 1 None)
  | inr None => ret (mkExit 1 None)
  | inr (Some testCases) =>
      t <- forTestCases R testCases tally0 ;;
      ret (mkExit (if (0 <? failedCount t)%nat then 1 else 0)
                  (Some (mkSummary (List.length testCases) (successCount t)
                                   (failedCount t) (failedTestCases t))))
  end.

(** The script: a fatal error exits with 1. *)
Definition main {W} (R : Remote W) (re : RunEnv) (w : W) : Exit * ClientState W :=
  match mainBody R re (mkClientState w []) with
  | (inl _, st) => (mkExit 1 None, st)
  | (inr e, st) => (e, st)
  end.

Local Close Scope sync_scope.

(** The run gets as far as the loop: configuration and secret are there
    and the JSON file holds a [testCases] array. *)
Definition reachesLoop (re : RunEnv) (testCases : list TestCase) : Prop :=
  (exists cfg, _loadConfig (config_env re) = inr cfg)
  /\ (exists pat, _fetchSecrets re = inr pat)
  /\ payload re = inr (Some testCases).

(* ===================================================================== *)
(** ** The retry helper *)
(* ===================================================================== *)

Module Helpers.

(** What [retryAction] does, oldest first: an invocation of the action with
    its outcome, or a pause of [delay] milliseconds. *)
Inductive RetryEvent (T : Type) :=
| Attempt (outcome : Error + T)
| Wait (delay : Z).
Arguments Attempt {T} _.
Arguments Wait {T} _.

(** How the returned promise settles; [lastError] is [undefined] until an
    attempt has failed. *)
Inductive RetryResult (T : Type) :=
| Returned (v : T)
| Rethrown (lastError : option Error).
Arguments Returned {T} _.
Arguments Rethrown {T} _.

(** The [for] loop of [retryAction]. [action] runs against the world [W];
    [sleep d] is what the world does during [setTimeout(resolve, d)]. The
    loop variable is [attempt]; [fuel] bounds the number of guard tests. *)
Fixpoint retryLoop {W T} (action : W -> (Error + T) * W) (sleep : Z -> W -> W)
    (maxRetries initialDelay : Z) (fuel : nat) (attempt : Z)
    (lastError : option Error) (w : W) (tr : list (RetryEvent T))
    : option (RetryResult T * W * list (RetryEvent T)) :=
  match fuel with
  | O => None
  | S fuel' =>
      if (attempt <? maxRetries)%Z then
        match action w with
        | (inr v, w') => Some (Returned v, w', (tr ++ [Attempt (inr v)])%list)
        | (inl error, w') =>
            let tr' := (tr ++ [Attempt (inl error)])%list in
            if (attempt <? maxRetries - 1)%Z then
              let delay := (initialDelay * 2 ^ attempt)%Z in
              retryLoop action sleep maxRetries initialDelay fuel' (attempt + 1)
                        (Some error) (sleep delay w') (tr' ++ [Wait delay])%list
            else
              retryLoop action sleep maxRetries initialDelay fuel' (attempt + 1)
                        (Some error) w' tr'
        end
      else Some (Rethrown lastError, w, tr)
  end.

(** [retryAction(action, maxRetries = 3, initialDelay = 1000)]. The guard
    is tested at most [maxRetries + 1] times. *)
Definition retryAction {W T} (action : W -> (Error + T) * W) (sleep : Z -> W -> W)
    (maxRetries initialDelay : option Z) (w : W)
    : option (RetryResult T * W * list (RetryEvent T)) :=
  let maxRetries := default 3%Z maxRetries in
  let initialDelay := default 1000%Z initialDelay in
  retryLoop action sleep maxRetries initialDelay (S (Z.to_nat maxRetries)) 0 None w [].

(** The number of invocations of the action in a trace. *)
Definition attempts {T} (tr : list (RetryEvent T)) : nat :=
  List.length (List.filter (fun ev => match ev with Attempt _ => true | Wait _ => false end) tr).

(** Failed attempts number [k], [k+1], ..., each followed by its pause of
    [initialDelay * 2^k]. *)
Fixpoint backoff {T} (initialDelay : Z) (k : nat) (errors : list Error) : list (RetryEvent T) :=
  match errors with
  | [] => []
  | e :: rest =>
      Attempt (inl e) :: Wait (initialDelay * 2 ^ Z.of_nat k)%Z
        :: backoff initialDelay (S k) rest
  end.

(** A trace agrees with the action and the pauses: replayed from [w], each
    attempt has the outcome that the action gives there, and the world ends
    as [w']. *)
Fixpoint consistent {W T} (action : W -> (Error + T) * W) (sleep : Z -> W -> W)
    (w : W) (tr : list (RetryEvent T)) (w' : W) : Prop :=
  match tr with
  | [] => w = w'
  | Attempt r :: rest =>
      (action w).1 = r /\ consistent action sleep (action w).2 rest w'
  | Wait d :: rest => consistent action sleep (sleep d w) rest w'
  end.

(** A world for examples: the action fails with ["busy"] until the counter
    reaches [2], then answers the counter; pauses do not change it. *)
Definition flaky (w : nat) : (Error + nat) * nat :=
  if (w <? 2)%nat then (inl (mkError "busy"), S w) else (inr w, S w).

Definition idle (d : Z) (w : nat) : nat := w.

(** The pauses of a trace: their sum in milliseconds and their number. *)
Fixpoint totalWait {T} (tr : list (RetryEvent T)) : Z :=
  match tr with
  | [] => 0
  | Attempt _ :: rest => totalWait rest
  | Wait d :: rest => d + totalWait rest
  end.

Definition waits {T} (tr : list (RetryEvent T)) : nat :=
  List.length (List.filter (fun ev => match ev with Attempt _ => false | Wait _ => true end) tr).

(** [str.replace(/[...]/g, r)] for a character class [p]. *)
Fixpoint replaceClass (p : ascii -> bool) (r : string) (s : string) : string :=
  match s with
  | EmptyString => EmptyString
  | String a t =>
      if p a then r +:+ replaceClass p r t
      else String a (replaceClass p r t)
  end.

(** [formatTestDate], given the string that [new Date().toISOString()]
    returns. *)
Definition formatTestDate (iso : string) : string :=
  replaceClass (fun c => Ascii.eqb c ":" || Ascii.eqb c ".") "-" iso.

(** [`test-results/screenshots/${name}-${timestamp}.png`], the path that
    [takeTimestampedScreenshot] writes to. *)
Definition screenshotPath (name iso : string) : string :=
  "test-results/screenshots/" +:+ name +:+ "-" +:+ formatTestDate iso +:+ ".png".

(** The alphabet of [generateRandomString]. *)
Definition chars : string :=
  "ABCDEFGHIJKLMNOPQRSTUVWXYZabcdefghijklmnopqrstuvwxyz0123456789".

(** [s.charAt(k)] for an integer [k]: the empty string out of range. *)
Definition charAt (s : string) (k : Z) : string :=
  if (k <? 0)%Z then ""
  else match String.get (Z.to_nat k) s with
       | Some c => String c ""
       | None => ""
       end.

(** The loop of [generateRandomString]. [draw] stands for
    [Math.floor(Math.random() * chars.length)], an integer taken from the
    world; [n] is the number of iterations left. *)
Fixpoint generateLoop {W} (draw : W -> Z * W) (n : nat) (result : string) (w : W)
    : string * W :=
  match n with
  | O => (result, w)
  | S n' =>
      let '(k, w') := draw w in
      generateLoop draw n' (result +:+ charAt chars k) w'
  end.

(** [generateRandomString(length)] for an integer [length]: the counter
    runs from [0] while it is below [length]. *)
Definition generateRandomString {W} (draw : W -> Z * W) (length : Z) (w : W)
    : string * W :=
  generateLoop draw (Z.to_nat length) "" w.

(** A source of indices for examples: [w mod 62], then [w + 7]. *)
Definition stepping (w : Z) : Z * Z := ((w mod 62)%Z, (w + 7)%Z).

End Helpers.

(* ===================================================================== *)
(** ** Outcomes per definition, as the specification words them *)
(* ===================================================================== *)

(** The specification's [SyncResult]. *)
Inductive SyncResult :=
| Created (workItemId : Z)
| Skipped (why : string)
| Failed (why : string).

(** The specification's classification of one definition: an invalid
    definition is [Skipped] without a remote call; otherwise
    [createTestCase] is followed by [addToSuite] with the returned
    identifier, and a thrown error makes that item [Failed]. The result
    comes with the requests made for the definition and the world after
    them. *)
Definition specStep {W} (R : Remote W) (tc : TestCase) (w : W)
    : SyncResult * list RemoteCall * W :=
  if invalid tc then (Skipped "Missing title or steps", [], w)
  else
    let body := buildTestCaseBody tc in
    match post_workitem R body w with
    | (inl e, w1) => (Failed (message e), [CreateCall body], w1)
    | (inr wid, w1) =>
        match post_suite R wid w1 with
        | (inl e, w2) => (Failed (message e), [CreateCall body; SuiteCall wid], w2)
        | (inr _, w2) => (Created wid, [CreateCall body; SuiteCall wid], w2)
        end
    end.

(** One definition after another, in the order of the list. *)
Fixpoint specRun {W} (R : Remote W) (testCases : list TestCase) (w : W)
    : list (SyncResult * list RemoteCall) :=
  match testCases with
  | [] => []
  | tc :: rest =>
      let '(r, cs, w') := specStep R tc w in
      (r, cs) :: specRun R rest w'
  end.

Definition specResults {W} (R : Remote W) (testCases : list TestCase) (w : W)
    : list SyncResult :=
  (specRun R testCases w).*1.

Definition specCalls {W} (R : Remote W) (testCases : list TestCase) (w : W)
    : list RemoteCall :=
  List.concat (specRun R testCases w).*2.

Definition isCreated (r : SyncResult) : bool :=
  match r with Created _ => true | _ => false end.
Definition isSkipped (r : SyncResult) : bool :=
  match r with Skipped _ => true | _ => false end.
Definition isFailed (r : SyncResult) : bool :=
  match r with Failed _ => true | _ => false end.

Definition countOf (p : SyncResult -> bool) (l : list SyncResult) : nat :=
  List.length (List.filter p l).

(** The entry that the script lists for a definition with a given outcome. *)
Definition entryOf (tc : TestCase) (r : SyncResult) : list FailedEntry :=
  match r with
  | Created _ => []
  | Skipped why => [mkFailedEntry (id tc) (title tc) why]
  | Failed why => [mkFailedEntry (id tc) (title tc) why]
  end.

(** The entries that the script lists for a run. *)
Definition specEntries {W} (R : Remote W) (testCases : list TestCase) (w : W)
    : list FailedEntry :=
  List.concat (zip_with entryOf testCases (specResults R testCases w)).

(** The tag string as the specification words it: explicit tags, then
    [LogicalID:<id>] when [id] is present, then [Category:<category>] when
    [category] is present, joined with ["; "]. *)
Definition specTags (tc : TestCase) : string :=
  join "; "
    (default [] (tags tc)
     ++ match id tc with Some i => ["LogicalID:" +:+ i] | None => [] end
     ++ match category tc with Some c => ["Category:" +:+ c] | None => [] end)%list.

(* ===================================================================== *)
(** ** Well-formed markup *)
(* ===================================================================== *)

(** The part of the XML grammar that the step markup uses: names,
    attributes with double-quoted values, character data, the predefined
    entity references, and elements with matching start and end tags. *)

Definition is_letter (c : ascii) : bool :=
  let n := nat_of_ascii c in
  ((65 <=? n) && (n <=? 90) || (97 <=? n) && (n <=? 122))%nat.

Definition is_digit (c : ascii) : bool :=
  let n := nat_of_ascii c in ((48 <=? n) && (n <=? 57))%nat.

Definition is_name_start (c : ascii) : bool :=
  is_letter c || Ascii.eqb c "_" || Ascii.eqb c ":".

Definition is_name_char (c : ascii) : bool :=
  is_name_start c || is_digit c || Ascii.eqb c "-" || Ascii.eqb c ".".

Fixpoint all_chars (p : ascii -> bool) (s : string) : bool :=
  match s with
  | EmptyString => true
  | String c rest => p c && all_chars p rest
  end.

Definition name_ok (s : string) : bool :=
  match s with
  | EmptyString => false
  | String c rest => is_name_start c && all_chars is_name_char rest
  end.

(** What must follow an ampersand: one of the predefined entities. *)
Definition reference_follows (rest : string) : bool :=
  String.prefix "amp;" rest || String.prefix "lt;" rest || String.prefix "gt;" rest
  || String.prefix "apos;" rest || String.prefix "quot;" rest.

(** A character that XML allows in a document: tab, line feed, carriage
    return, and everything from the space on. *)
Definition xml_char (c : ascii) : bool :=
  let n := nat_of_ascii c in
  ((n =? 9) || (n =? 10) || (n =? 13) || (32 <=? n))%nat.

(** Character data: allowed characters only, no [<], no [&] other than a
    reference, no []]>]. *)
Fixpoint chardata_ok (s : string) : bool :=
  match s with
  | EmptyString => true
  | String c rest =>
      xml_char c
      && (if Ascii.eqb c "<" then false
          else if Ascii.eqb c "&" then reference_follows rest
          else if Ascii.eqb c "]" then negb (String.prefix "]>" rest)
          else true)
      && chardata_ok rest
  end.

(** A double-quoted attribute value: allowed characters only, no [<], no
    double quote, no [&] other than a reference. *)
Fixpoint attvalue_ok (s : string) : bool :=
  match s with
  | EmptyString => true
  | String c rest =>
      xml_char c
      && (if Ascii.eqb c "<" then false
          else if Ascii.eqb c "034" then false
          else if Ascii.eqb c "&" then reference_follows rest
          else true)
      && attvalue_ok rest
  end.

Definition renderAttr (a : string * string) : string :=
  " " +:+ a.1 +:+ "=" +:+ dquote +:+ a.2 +:+ dquote.

Definition renderAttrs (attrs : list (string * string)) : string :=
  join "" (renderAttr <$> attrs).

Definition attrs_ok (attrs : list (string * string)) : bool :=
  forallb (fun a => name_ok a.1 && attvalue_ok a.2) attrs
  && bool_decide (NoDup (attrs.*1)).

(** Content is character data interleaved with elements; an element is a
    start tag, content, and the end tag of the same name. *)
Inductive xml_content : string -> Prop :=
| content_text (t : string) :
    chardata_ok t = true -> xml_content t
| content_element (t e rest : string) :
    chardata_ok t = true -> xml_element e -> xml_content rest ->
    xml_content (t +:+ e +:+ rest)
with xml_element : string -> Prop :=
| element_tags (name : string) (attrs : list (string * string)) (body : string) :
    name_ok name = true -> attrs_ok attrs = true -> xml_content body ->
    xml_element ("<" +:+ name +:+ renderAttrs attrs +:+ ">" +:+ body
                 +:+ "</" +:+ name +:+ ">").

Scheme xml_content_min := Minimality for xml_content Sort Prop
  with xml_element_min := Minimality for xml_element Sort Prop.

(** A document tree and its text. *)
#[local] Set Warnings "-register-all".






(** The replacement of one character, as the specification lists it. *)
Definition escapeChar (c : ascii) : string :=
  if Ascii.eqb c "&" then "&amp;"
  else if Ascii.eqb c "<" then "&lt;"
  else if Ascii.eqb c ">" then "&gt;"
  else String c "".

Fixpoint escapeEach (s : string) : string :=
  match s with
  | EmptyString => EmptyString
  | String c rest => escapeChar c +:+ escapeEach rest
  end.

(* ===================================================================== *)
(** ** Sample data *)
(* ===================================================================== *)

Definition sampleStep : Step := mkStep (Some "Open the page") (Some "Page is shown").

Definition firstCase : TestCase :=
  mkTestCase (Some "TC-1") (Some "Search opens") (Some 1%Z) (Some "Search")
             (Some ["smoke"]) (Some [sampleStep]).

Definition noStepsCase : TestCase :=
  mkTestCase (Some "TC-2") (Some "Search closes") (Some 2%Z) (Some "Search")
             (Some ["smoke"]) (Some []).

Definition thirdCase : TestCase :=
  mkTestCase (Some "TC-3") (Some "Search clears") None None None (Some [sampleStep]).

Definition threeCases : list TestCase := [firstCase; noStepsCase; thirdCase].

(** The second definition again, now with a step. *)
Definition withStepsCase : TestCase :=
  mkTestCase (Some "TC-2") (Some "Search closes") (Some 2%Z) (Some "Search")
             (Some ["smoke"]) (Some [sampleStep]).

(** A definition with an empty explicit tag and an empty id. *)
Definition emptyTagCase : TestCase :=
  mkTestCase (Some "") (Some "Search opens") None None
             (Some ["smoke"; ""; "search"]) (Some [sampleStep]).

(** A remote system whose world counts the work-item requests: the first
    one is answered with id [101], every later one throws; linking always
    succeeds. *)
Definition onceRemote : Remote nat :=
  mkRemote
    (fun _ n => if (n =? 0)%nat then (inr 101%Z, S n)
                else (inl (mkError "Request failed with status code 500"), S n))
    (fun _ n => (inr tt, n)).

(** A remote system that refuses every work item. *)
Definition refusingRemote : Remote nat :=
  mkRemote (fun _ n => (inl (mkError "Missing title or steps"), S n))
           (fun _ n => (inr tt, n)).

(** A remote system that answers every request. *)
Definition okRemote : Remote nat :=
  mkRemote (fun _ n => (inr (Z.of_nat n), S n)) (fun _ n => (inr tt, n)).

(** A working directory two levels below the one with [config.json]. *)
Definition sampleStore : gmap string JsValue :=
  list_to_map
    [ ("keyVaultUrl", JStr "https://vault.example");
      ("azureDevOpsPatSecretName", JStr "pat");
      ("azureDevOpsOrgUrl", JStr "https://dev.example/org/");
      ("azureDevOpsProject", JStr "Xbox");
      ("azureDevOpsPlanId", JNum 22228689);
      ("azureDevOpsSuiteId", JNum 60819220) ].

Definition sampleConfig : Config :=
  mkConfig (Some (JStr "https://vault.example")) (Some (JStr "pat"))
           (Some (JStr "https://dev.example/org/")) (Some (JStr "Xbox"))
           (Some (JNum 22228689)) (Some (JNum 60819220)).

Definition sampleAncestors : list string :=
  ["/repo/tests/TestData"; "/repo/tests"; "/repo"; ""].

Definition sampleConfigEnv : ConfigEnv :=
  mkConfigEnv sampleAncestors (fun p => String.eqb p "/repo/config.json")
              ∅ ∅ (fun _ => inr sampleStore).

(** The same, with the plan identifier [0] in the file. *)
Definition zeroPlanStore : gmap string JsValue :=
  <["azureDevOpsPlanId" := JNum 0]> sampleStore.

Definition zeroPlanEnv : ConfigEnv :=
  mkConfigEnv sampleAncestors (fun p => String.eqb p "/repo/config.json")
              ∅ ∅ (fun _ => inr zeroPlanStore).

(** The same, with a file that is not JSON. *)
Definition brokenFileEnv : ConfigEnv :=
  mkConfigEnv sampleAncestors (fun p => String.eqb p "/repo/config.json")
              ∅ ∅ (fun _ => inl (mkError "Error parsing your configuration file")).

Definition sampleRunEnv (testCases : list TestCase) : RunEnv :=
  mkRunEnv sampleConfigEnv (inr (Some "token")) (inr (Some testCases)).

(* ===================================================================== *)
(** ** Further notions used in the properties *)
(* ===================================================================== *)

(** Reading escaped text back: the three entity references are resolved,
    everything else is kept. [skip] characters are passed over first. *)
Fixpoint unescapeFrom (skip : nat) (s : string) : string :=
  match s with
  | EmptyString => EmptyString
  | String c rest =>
      match skip with
      | S k => unescapeFrom k rest
      | O =>
          if Ascii.eqb c "&" then
            if String.prefix "amp;" rest then String "&" (unescapeFrom 4 rest)
            else if String.prefix "lt;" rest then String "<" (unescapeFrom 3 rest)
            else if String.prefix "gt;" rest then String ">" (unescapeFrom 3 rest)
            else String c (unescapeFrom 0 rest)
          else String c (unescapeFrom 0 rest)
      end
  end.

Definition xmlUnescape (s : string) : string := unescapeFrom 0 s.

(** The number of occurrences of a character. *)
Fixpoint countChar (c : ascii) (s : string) : nat :=
  match s with
  | EmptyString => 0
  | String a rest => (if Ascii.eqb a c then 1 else 0) + countChar c rest
  end.

(** One of the three characters that the escaper replaces. *)
Definition isMarkupChar (c : ascii) : bool :=
  Ascii.eqb c "&" || Ascii.eqb c "<" || Ascii.eqb c ">".

(** A letter or a digit. *)
Definition is_alnum (c : ascii) : bool := is_letter c || is_digit c.

(** Every suite request comes directly after a create request. *)
Fixpoint wellPaired (l : list RemoteCall) : bool :=
  match l with
  | [] => true
  | SuiteCall _ :: _ => false
  | CreateCall _ :: rest =>
      match rest with
      | SuiteCall _ :: rest' => wellPaired rest'
      | _ => wellPaired rest
      end
  end.

Definition isCreateCall (c : RemoteCall) : bool :=
  match c with CreateCall _ => true | SuiteCall _ => false end.

Definition isSuiteCall (c : RemoteCall) : bool :=
  match c with CreateCall _ => false | SuiteCall _ => true end.

Definition countCalls (p : RemoteCall -> bool) (l : list RemoteCall) : nat :=
  List.length (List.filter p l).

(** The definitions that pass the validation guard. *)
Definition validOnes (testCases : list TestCase) : list TestCase :=
  List.filter (fun tc => negb (invalid tc)) testCases.

(** The same run environment with another list of definitions in the file. *)
Definition withTestCases (re : RunEnv) (testCases : list TestCase) : RunEnv :=
  mkRunEnv (config_env re) (secret re) (inr (Some testCases)).

(** A configuration file that lacks the project and the suite. *)
Definition partialStore : gmap string JsValue :=
  delete "azureDevOpsSuiteId" (<["azureDevOpsProject" := JStr ""]> sampleStore).

Definition partialConfigEnv : ConfigEnv :=
  mkConfigEnv ["/repo/tests"; "/repo"] (fun p => String.eqb p "/repo/config.json")
              ∅ ∅ (fun _ => inr partialStore).

(* ===================================================================== *)
(** * Properties *)
(* ===================================================================== *)

(** ** Strings *)

#[local] Arguments String.append !_ _ / : simpl nomatch.

Lemma append_empty_r (s : string) : s +:+ "" = s.
Proof. induction s as [|c s IH]; simpl; [reflexivity | now rewrite IH]. Qed.

Lemma append_assoc (a b c : string) : (a +:+ b) +:+ c = a +:+ b +:+ c.
Proof. induction a as [|x a IH]; simpl; [reflexivity | now rewrite IH]. Qed.


Lemma replaceAll_append (c : ascii) (r a b : string) :
  replaceAll c r (a +:+ b) = replaceAll c r a +:+ replaceAll c r b.
Proof.
  induction a as [|x a IH]; simpl; [reflexivity |].
  destruct (Ascii.eqb x c); simpl; rewrite IH; [now rewrite append_assoc | reflexivity].
Qed.

(** ** The escaper, character by character *)

Lemma xmlEscape_escapeEach (s : string) : xmlEscape (Some s) = escapeEach s.
Proof.
  unfold xmlEscape; simpl.
  induction s as [|c s IH]; [reflexivity |].
  simpl. unfold escapeChar.
  destruct (Ascii.eqb c "&") eqn:Eamp.
  - apply Ascii.eqb_eq in Eamp; subst c. simpl. now rewrite IH.
  - simpl. destruct (Ascii.eqb c "<") eqn:Elt.
    + apply Ascii.eqb_eq in Elt; subst c. simpl. now rewrite IH.
    + simpl. destruct (Ascii.eqb c ">") eqn:Egt.
      * apply Ascii.eqb_eq in Egt; subst c. simpl. now rewrite IH.
      * simpl. now rewrite IH.
Qed.

Example xmlEscape_mixed :
  xmlEscape (Some "a & b < c > d") = "a &amp; b &lt; c &gt; d".
Proof. reflexivity. Qed.

Example xmlEscape_undefined : xmlEscape None = "".
Proof. reflexivity. Qed.

Example buildStepsXml_two :
  buildStepsXml [mkStep (Some "a<b") None; mkStep (Some "R&D") (Some "x > y")] =
  "<steps id=" +:+ dquote +:+ "0" +:+ dquote +:+ ">"
  +:+ "<step id=" +:+ dquote +:+ "1" +:+ dquote +:+ " type=" +:+ dquote +:+ "ActionStep"
  +:+ dquote +:+ ">" +:+ newline
  +:+ "  <parameterizedString isformatted=" +:+ dquote +:+ "true" +:+ dquote
  +:+ ">a&lt;b</parameterizedString>" +:+ newline
  +:+ "  <parameterizedString isformatted=" +:+ dquote +:+ "true" +:+ dquote
  +:+ "></parameterizedString>" +:+ newline +:+ "</step>"
  +:+ "<step id=" +:+ dquote +:+ "2" +:+ dquote +:+ " type=" +:+ dquote +:+ "ActionStep"
  +:+ dquote +:+ ">" +:+ newline
  +:+ "  <parameterizedString isformatted=" +:+ dquote +:+ "true" +:+ dquote
  +:+ ">R&amp;D</parameterizedString>" +:+ newline
  +:+ "  <parameterizedString isformatted=" +:+ dquote +:+ "true" +:+ dquote
  +:+ ">x &gt; y</parameterizedString>" +:+ newline +:+ "</step>"
  +:+ "</steps>".
Proof. reflexivity. Qed.

Example chardata_rejects_raw_lt : chardata_ok "a<b" = false.
Proof. reflexivity. Qed.

Example chardata_rejects_raw_amp : chardata_ok "a & b" = false.
Proof. reflexivity. Qed.

Example chardata_rejects_cdata_end : chardata_ok "a]]>b" = false.
Proof. reflexivity. Qed.

Lemma prefix_head_ne (a c : ascii) (p s : string) :
  a <> c -> String.prefix (String a p) (String c s) = false.
Proof. intros Hne. simpl. destruct (Ascii.ascii_dec a c); [contradiction | reflexivity]. Qed.

Lemma prefix_head_eq (a : ascii) (p s : string) :
  String.prefix (String a p) (String a s) = String.prefix p s.
Proof. simpl. destruct (Ascii.ascii_dec a a); [reflexivity | contradiction]. Qed.




Lemma prefix_empty (s : string) : String.prefix "" s = true.
Proof. now destruct s. Qed.





(** ** The step markup is well formed *)








(** ** The markup against its tree *)




(** ** Only allowed characters in well-formed markup *)





Lemma all_chars_app (p : ascii -> bool) (a b : string) :
  all_chars p (a +:+ b) = all_chars p a && all_chars p b.
Proof. induction a as [|c a IH]; simpl; [reflexivity | now rewrite IH, andb_assoc]. Qed.



Lemma escapeEach_legal_iff (s : string) :
  all_chars xml_char (escapeEach s) = all_chars xml_char s.
Proof.
  induction s as [|c s IH]; [reflexivity |].
  cbn [escapeEach all_chars]. rewrite all_chars_app, IH. f_equal.
  unfold escapeChar.
  destruct (Ascii.eqb c "&") eqn:Eamp; [apply Ascii.eqb_eq in Eamp; now subst c |].
  destruct (Ascii.eqb c "<") eqn:Elt; [apply Ascii.eqb_eq in Elt; now subst c |].
  destruct (Ascii.eqb c ">") eqn:Egt; [apply Ascii.eqb_eq in Egt; now subst c |].
  cbn [all_chars]. now rewrite andb_true_r.
Qed.




(** ** Tags and the field-patch body *)

Example buildTags_firstCase :
  buildTags firstCase = "smoke; LogicalID:TC-1; Category:Search".
Proof. reflexivity. Qed.

Example buildTags_emptyTagCase : buildTags emptyTagCase = "smoke; search".
Proof. reflexivity. Qed.

Example specTags_emptyTagCase : specTags emptyTagCase = "smoke; ; search; LogicalID:".
Proof. reflexivity. Qed.

Lemma filterBoolean_app (a b : list (option string)) :
  filterBoolean (a ++ b)%list = (filterBoolean a ++ filterBoolean b)%list.
Proof. unfold filterBoolean. apply omap_app. Qed.

Lemma filterBoolean_explicit (l : list string) :
  filterBoolean (Some <$> l) = List.filter (fun t => negb (String.eqb t "")) l.
Proof.
  induction l as [|t l IH]; [reflexivity |].
  cbn. fold (filterBoolean (Some <$> l)). rewrite IH. now destruct t.
Qed.

(** C6, as the code has it. For every definition the tag string is the
    ["; "]-joined concatenation of the non-empty explicit tags in their
    original order, then [LogicalID:<id>] when [id] is present and not
    empty, then [Category:<category>] when [category] is present and not
    empty; empty explicit tags and absent or empty [id] and [category]
    contribute no element. *)
Theorem buildTags_nonempty_parts (tc : TestCase) :
  buildTags tc =
  join "; "
    (List.filter (fun t => negb (String.eqb t "")) (default [] (tags tc))
     ++ match id tc with
        | Some (String a i) => ["LogicalID:" +:+ String a i]
        | _ => []
        end
     ++ match category tc with
        | Some (String a c) => ["Category:" +:+ String a c]
        | _ => []
        end)%list.
Proof.
  unfold buildTags, tagParts, tagCandidates.
  rewrite filterBoolean_app, filterBoolean_explicit.
  do 2 f_equal.
  destruct (id tc) as [[|a i]|], (category tc) as [[|b c]|]; reflexivity.
Qed.

(** C6, counterexample to the claim as stated: with the explicit tags
    [smoke], the empty string and [search], and an empty [id], the code
    produces [smoke; search], not the joined string of the claim. *)
Lemma buildTags_drops_empty_parts : buildTags emptyTagCase <> specTags emptyTagCase.
Proof. vm_compute. discriminate. Qed.

Lemma truthy_num_spec (p : option Z) :
  truthy_num p = true <-> exists z, p = Some z /\ z <> 0%Z.
Proof.
  destruct p as [z|]; simpl.
  - rewrite negb_true_iff, Z.eqb_neq. split; [eauto | intros (z' & [= ->] & H); exact H].
  - split; [discriminate | intros (z & [=] & _)].
Qed.

(** C10. The body built for a definition contains an operation on
    [Microsoft.VSTS.Common.Priority] if and only if the priority is truthy
    (present and not zero); with priority absent or [0] the body is exactly
    the three base operations Title, Steps and Tags. *)
Theorem buildTestCaseBody_priority :
  (forall tc : TestCase,
     (exists o, In o (buildTestCaseBody tc) /\ path o = priorityPath)
     <-> truthy_num (priority tc) = true)
  /\ (forall p : option Z, truthy_num p = true <-> exists z, p = Some z /\ z <> 0%Z)
  /\ (forall i t c tg st,
        buildTestCaseBody (mkTestCase i t None c tg st) =
        [ mkPatchOp "add" "/fields/System.Title" (value_of_string t);
          mkPatchOp "add" "/fields/Microsoft.VSTS.TCM.Steps"
                    (VString (buildStepsXml (default [] st)));
          mkPatchOp "add" "/fields/System.Tags"
                    (VString (buildTags (mkTestCase i t None c tg st))) ])
  /\ (forall i t c tg st,
        buildTestCaseBody (mkTestCase i t (Some 0%Z) c tg st) =
        [ mkPatchOp "add" "/fields/System.Title" (value_of_string t);
          mkPatchOp "add" "/fields/Microsoft.VSTS.TCM.Steps"
                    (VString (buildStepsXml (default [] st)));
          mkPatchOp "add" "/fields/System.Tags"
                    (VString (buildTags (mkTestCase i t (Some 0%Z) c tg st))) ]).
Proof.
  split; [| split; [exact truthy_num_spec | split; reflexivity]].
  intros tc. unfold buildTestCaseBody.
  destruct (truthy_num (priority tc)) eqn:E.
  - split; [reflexivity | intros _].
    eexists. split; [apply in_or_app; right; left; reflexivity | reflexivity].
  - split; [| discriminate].
    intros (o & Hin & Hp). simpl in Hin.
    destruct Hin as [<- | [<- | [<- | []]]]; discriminate Hp.
Qed.

Example buildTestCaseBody_with_priority :
  List.length (buildTestCaseBody firstCase) = 4%nat
  /\ List.last (buildTestCaseBody firstCase) (mkPatchOp "" "" VUndefined)
     = mkPatchOp "add" priorityPath (VNumber 1).
Proof. split; reflexivity. Qed.

(** ** The main loop *)

Section Loop.
Context {W : Type} (R : Remote W).

(** The tally after a definition with a given outcome. *)
Lemma processTestCase_specStep (tc : TestCase) (t : Tally) (st : ClientState W) :
  processTestCase R tc t st =
  let '(r, cs, w') := specStep R tc (world st) in
  (inr match r with
       | Created _ => recordSuccess t
       | Skipped why => recordFailure tc why t
       | Failed why => recordFailure tc why t
       end,
   mkClientState w' (calls st ++ cs)).
Proof.
  unfold processTestCase, specStep. destruct st as [w cs].
  destruct (invalid tc).
  - unfold ret. simpl. now rewrite app_nil_r.
  - unfold try_catch, bind, createTestCase, addToSuite, try_catch,
      axios_post_workitem, axios_post_suite, throw, ret. simpl.
    destruct (post_workitem R (buildTestCaseBody tc) w) as [[e | wid] w1]; [reflexivity |].
    simpl. destruct (post_suite R wid w1) as [[e | []] w2]; simpl;
      now rewrite <- app_assoc.
Qed.

(** An iteration never lets an exception escape. *)
Lemma processTestCase_returns (tc : TestCase) (t : Tally) (st : ClientState W) :
  exists t' st', processTestCase R tc t st = (inr t', st').
Proof.
  rewrite processTestCase_specStep.
  destruct (specStep R tc (world st)) as [[r cs] w']. eauto.
Qed.

Lemma countOf_cons (p : SyncResult -> bool) (r : SyncResult) (l : list SyncResult) :
  countOf p (r :: l) = ((if p r then 1 else 0) + countOf p l)%nat.
Proof. unfold countOf. simpl. now destruct (p r). Qed.

Lemma specRun_cons (tc : TestCase) (rest : list TestCase) (w w' : W)
    (r : SyncResult) (cs : list RemoteCall) :
  specStep R tc w = (r, cs, w') ->
  specResults R (tc :: rest) w = r :: specResults R rest w'
  /\ specCalls R (tc :: rest) w = cs ++ specCalls R rest w'
  /\ specEntries R (tc :: rest) w = entryOf tc r ++ specEntries R rest w'.
Proof.
  intros E. unfold specEntries, specCalls, specResults. simpl specRun. rewrite E.
  repeat split; reflexivity.
Qed.

(** The loop against the specification's run: it ends normally, with the
    counters, the listed entries and the requests of the run. *)
Lemma forTestCases_specRun (testCases : list TestCase) (t : Tally) (st : ClientState W) :
  exists t' w',
    forTestCases R testCases t st
    = (inr t', mkClientState w' (calls st ++ specCalls R testCases (world st)))
    /\ successCount t'
       = (successCount t + countOf isCreated (specResults R testCases (world st)))%nat
    /\ failedCount t'
       = (failedCount t + countOf isSkipped (specResults R testCases (world st))
          + countOf isFailed (specResults R testCases (world st)))%nat
    /\ failedTestCases t'
       = failedTestCases t ++ specEntries R testCases (world st).
Proof.
  revert t st. induction testCases as [|tc rest IH]; intros t st.
  - exists t, (world st). unfold specCalls, specEntries, specResults, countOf. simpl.
    rewrite !app_nil_r. destruct st. repeat split; simpl; lia.
  - simpl forTestCases. unfold bind. rewrite processTestCase_specStep.
    destruct (specStep R tc (world st)) as [[r cs] w1] eqn:Estep.
    destruct (specRun_cons tc rest _ _ _ _ Estep) as (-> & -> & ->).
    match goal with |- context [forTestCases R rest ?t1 ?st1] =>
      destruct (IH t1 st1) as (t' & w' & Hrun & Hs & Hf & Hl) end.
    exists t', w'. cbn [world calls] in Hrun, Hs, Hf, Hl.
    rewrite Hrun, Hs, Hf, Hl, !countOf_cons, <- !app_assoc.
    unfold recordSuccess, recordFailure.
    repeat split; destruct r; cbn [successCount failedCount failedTestCases
      isCreated isSkipped isFailed entryOf]; try lia; now rewrite <- ?app_assoc.
Qed.

End Loop.

(** ** The whole run *)

Section Run.
Context {W : Type} (R : Remote W).

Lemma main_reachesLoop (re : RunEnv) (testCases : list TestCase) (w : W) :
  reachesLoop re testCases ->
  main R re w =
  match forTestCases R testCases tally0 (mkClientState w []) with
  | (inl _, st) => (mkExit 1 None, st)
  | (inr t, st) =>
      (mkExit (if (0 <? failedCount t)%nat then 1 else 0)
              (Some (mkSummary (List.length testCases) (successCount t)
                               (failedCount t) (failedTestCases t))), st)
  end.
Proof.
  intros ((cfg & Hc) & (pat & Hp) & Hl).
  unfold main, mainBody, bind, initialize. rewrite Hc, Hp, Hl. unfold ret at 1.
  destruct (forTestCases R testCases tally0 (mkClientState w [])) as [[e | t] st];
    reflexivity.
Qed.

Lemma countOf_total (l : list SyncResult) :
  (countOf isCreated l + countOf isSkipped l + countOf isFailed l)%nat = List.length l.
Proof.
  induction l as [|r l IH]; [reflexivity |].
  rewrite !countOf_cons. destruct r; simpl; lia.
Qed.

Lemma specResults_length (testCases : list TestCase) (w : W) :
  List.length (specResults R testCases w) = List.length testCases.
Proof.
  revert w. induction testCases as [|tc rest IH]; intros w; [reflexivity |].
  destruct (specStep R tc w) as [[r cs] w1] eqn:E.
  destruct (specRun_cons R tc rest _ _ _ _ E) as (-> & _ & _).
  simpl. now rewrite IH.
Qed.

(** The run in terms of the specification's outcomes. *)
Lemma main_summary (re : RunEnv) (testCases : list TestCase) (w : W) :
  reachesLoop re testCases ->
  let results := specResults R testCases w in
  exists w',
    main R re w =
    (mkExit (if (0 <? countOf isSkipped results + countOf isFailed results)%nat
             then 1 else 0)
            (Some (mkSummary (List.length testCases) (countOf isCreated results)
                             (countOf isSkipped results + countOf isFailed results)
                             (specEntries R testCases w))),
     mkClientState w' (specCalls R testCases w)).
Proof.
  intros Hready results. rewrite (main_reachesLoop re testCases w Hready).
  destruct (forTestCases_specRun R testCases tally0 (mkClientState w []))
    as (t' & w' & -> & Hs & Hf & Hl).
  exists w'. cbn [world calls tally0 successCount failedCount failedTestCases] in *.
  fold results in Hs, Hf. rewrite Hs, Hf, Hl. reflexivity.
Qed.

End Run.

(** ** Exit code, skipped definitions, the scenario *)

Example sampleRunEnv_reachesLoop (l : list TestCase) : reachesLoop (sampleRunEnv l) l.
Proof.
  split; [eexists; vm_compute; reflexivity |].
  split; [eexists; vm_compute; reflexivity | reflexivity].
Qed.

(** C1, as the code has it. When the run reaches the loop, the exit code is
    0 if and only if no definition ended Failed and none was Skipped (every
    definition was created); it is 0 or 1, and 0 for an empty list. *)
Theorem exit_code_zero_iff_all_created {W : Type} (R : Remote W) (re : RunEnv)
    (testCases : list TestCase) (w : W) :
  reachesLoop re testCases ->
  (exit_code (main R re w).1 = 0%Z
   <-> countOf isFailed (specResults R testCases w) = 0%nat
       /\ countOf isSkipped (specResults R testCases w) = 0%nat)
  /\ (exit_code (main R re w).1 = 0%Z \/ exit_code (main R re w).1 = 1%Z)
  /\ (testCases = [] -> exit_code (main R re w).1 = 0%Z).
Proof.
  intros Hready. destruct (main_summary R re testCases w Hready) as (w' & ->).
  cbn [fst exit_code].
  destruct (0 <? countOf isSkipped (specResults R testCases w)
                 + countOf isFailed (specResults R testCases w))%nat eqn:E.
  - apply Nat.ltb_lt in E. split; [| split].
    + split; [discriminate | lia].
    + now right.
    + intros ->. unfold specResults, countOf in E. simpl in E. lia.
  - apply Nat.ltb_ge in E. split; [| split].
    + split; [lia | reflexivity].
    + now left.
    + reflexivity.
Qed.

Lemma exit_code_zero_iff_all_created_witness :
  exit_code (main okRemote (sampleRunEnv [firstCase]) 0%nat).1 = 0%Z
  <-> countOf isFailed (specResults okRemote [firstCase] 0%nat) = 0%nat
      /\ countOf isSkipped (specResults okRemote [firstCase] 0%nat) = 0%nat.
Proof.
  exact (proj1 (exit_code_zero_iff_all_created okRemote (sampleRunEnv [firstCase])
                  [firstCase] 0%nat (sampleRunEnv_reachesLoop [firstCase]))).
Defined.

(** C1, counterexample to the claim as stated: a run over one definition
    with an empty step list reaches the loop, no definition ends Failed, the
    definition is Skipped, and the exit code is 1. *)
Lemma skipped_definition_exits_1 :
  reachesLoop (sampleRunEnv [noStepsCase]) [noStepsCase]
  /\ specResults okRemote [noStepsCase] 0%nat = [Skipped "Missing title or steps"]
  /\ exit_code (main okRemote (sampleRunEnv [noStepsCase]) 0%nat).1 = 1%Z
  /\ ~ (exit_code (main okRemote (sampleRunEnv [noStepsCase]) 0%nat).1 = 0%Z
        <-> countOf isFailed (specResults okRemote [noStepsCase] 0%nat) = 0%nat).
Proof.
  split; [apply sampleRunEnv_reachesLoop |].
  split; [reflexivity |].
  assert (E : exit_code (main okRemote (sampleRunEnv [noStepsCase]) 0%nat).1 = 1%Z)
    by (vm_compute; reflexivity).
  split; [exact E |].
  intros [_ H]. rewrite E in H. discriminate H. reflexivity.
Qed.

Lemma invalid_spec (tc : TestCase) :
  invalid tc = true
  <-> title tc = None \/ title tc = Some "" \/ steps tc = None \/ steps tc = Some [].
Proof.
  unfold invalid. destruct (title tc) as [[|a s]|], (steps tc) as [[|x l]|]; simpl;
    split; intros H; try reflexivity; try discriminate H; auto 6;
    destruct H as [H | [H | [H | H]]]; discriminate H.
Qed.

(** C2, as the code has it. For every definition whose title is empty or
    missing, or whose step list is empty or missing, the iteration makes no
    remote call (the requests and the world are unchanged), throws nothing,
    counts the definition in [failedCount] and lists it in
    [failedTestCases] with the reason [Missing title or steps] (the script
    has no record of its own for skipped definitions), and the loop goes on
    with the remaining definitions. *)
Theorem invalid_definition_skipped {W : Type} (R : Remote W) (tc : TestCase)
    (rest : list TestCase) (t : Tally) (st : ClientState W) :
  title tc = None \/ title tc = Some "" \/ steps tc = None \/ steps tc = Some [] ->
  processTestCase R tc t st
  = (inr (mkTally (successCount t) (failedCount t + 1)
                  (failedTestCases t
                   ++ [mkFailedEntry (id tc) (title tc) "Missing title or steps"])),
     st)
  /\ forTestCases R (tc :: rest) t st
     = forTestCases R rest
         (mkTally (successCount t) (failedCount t + 1)
                  (failedTestCases t
                   ++ [mkFailedEntry (id tc) (title tc) "Missing title or steps"]))
         st.
Proof.
  intros H. apply invalid_spec in H.
  assert (E : processTestCase R tc t st
              = (inr (recordFailure tc "Missing title or steps" t), st))
    by (unfold processTestCase; now rewrite H).
  split; [exact E |].
  simpl forTestCases. unfold bind. now rewrite E.
Qed.

(** C2, counterexample to the claim as stated: the definition with an empty
    step list is not recorded as Skipped. What the script records for it
    is one more in [failedCount] and an entry in [failedTestCases], exactly
    the tally that a definition with the same id and title leaves when its
    create request throws an error with that message. *)
Lemma invalid_definition_recorded_as_failed :
  (processTestCase okRemote noStepsCase tally0 (mkClientState 0%nat [])).1
  = inr (mkTally 0 1 [mkFailedEntry (Some "TC-2") (Some "Search closes")
                                    "Missing title or steps"])
  /\ (processTestCase okRemote noStepsCase tally0 (mkClientState 0%nat [])).1
     = (processTestCase refusingRemote withStepsCase tally0 (mkClientState 0%nat [])).1
  /\ ~ (exists t, (processTestCase okRemote noStepsCase tally0 (mkClientState 0%nat [])).1
                  = inr t /\ failedCount t = 0%nat /\ failedTestCases t = []).
Proof.
  split; [reflexivity |]. split; [reflexivity |].
  intros (t & Ht & Hc & _). cbn in Ht. injection Ht as <-. discriminate Hc.
Qed.

Lemma invalid_definition_skipped_witness :
  processTestCase okRemote noStepsCase tally0 (mkClientState 0%nat [])
  = (inr (mkTally 0 1 [mkFailedEntry (Some "TC-2") (Some "Search closes")
                                     "Missing title or steps"]),
     mkClientState 0%nat []).
Proof.
  exact (proj1 (invalid_definition_skipped okRemote noStepsCase [] tally0
                  (mkClientState 0%nat [])
                  (or_intror (or_intror (or_intror eq_refl))))).
Defined.

(** C4. For every valid definition (non-empty title, at least one step)
    the iteration issues exactly one create request, with the built body,
    and throws nothing; the create request is followed by a suite request
    only when it returned an identifier, and then by exactly one, carrying
    that identifier. When both requests are answered (the definition is
    processed without error) the requests of the iteration are the create
    request and then the suite request, and one success is counted. *)
Theorem valid_definition_create_then_link {W : Type} (R : Remote W) (tc : TestCase)
    (t : Tally) (st : ClientState W) (a : ascii) (s : string) (x : Step) (l : list Step) :
  title tc = Some (String a s) ->
  steps tc = Some (x :: l) ->
  (exists t' w',
     processTestCase R tc t st
     = (inr t',
        mkClientState w'
          (calls st
           ++ CreateCall (buildTestCaseBody tc)
              :: match (post_workitem R (buildTestCaseBody tc) (world st)).1 with
                 | inr wid => [SuiteCall wid]
                 | inl _ => []
                 end)))
  /\ (forall (wid : Z) (w1 w2 : W) (u : unit),
        post_workitem R (buildTestCaseBody tc) (world st) = (inr wid, w1) ->
        post_suite R wid w1 = (inr u, w2) ->
        processTestCase R tc t st
        = (inr (mkTally (successCount t + 1) (failedCount t) (failedTestCases t)),
           mkClientState w2
             (calls st ++ [CreateCall (buildTestCaseBody tc); SuiteCall wid]))).
Proof.
  intros Ht Hs.
  assert (V : invalid tc = false) by (unfold invalid; now rewrite Ht, Hs).
  rewrite processTestCase_specStep. unfold specStep. rewrite V.
  split.
  - destruct (post_workitem R (buildTestCaseBody tc) (world st)) as [[e | wid] w1];
      [eauto |].
    destruct (post_suite R wid w1) as [[e | u] w2]; eauto.
  - intros wid w1 w2 u Hc Ha. now rewrite Hc, Ha.
Qed.

Lemma valid_definition_create_then_link_witness :
  processTestCase onceRemote firstCase tally0 (mkClientState 0%nat [])
  = (inr (mkTally 1 0 []),
     mkClientState 1%nat [CreateCall (buildTestCaseBody firstCase); SuiteCall 101]).
Proof.
  exact (proj2 (valid_definition_create_then_link onceRemote firstCase tally0
                  (mkClientState 0%nat []) "S" "earch opens" sampleStep []
                  eq_refl eq_refl)
           101%Z 1%nat 1%nat tt eq_refl eq_refl).
Defined.

(** C3, as the code has it. Given exactly three definitions where the first
    is valid and its two requests are answered, the second has an empty
    step list, and the create request of the third (valid) one throws, the
    summary reads: total 3, created 1, failed 2, the failed list holding the
    second definition with the reason [Missing title or steps] and the
    third with the error message; the exit code is 1. The summary has no
    count of skipped definitions. *)
Theorem three_definitions_scenario {W : Type} (R : Remote W) (re : RunEnv)
    (d1 d2 d3 : TestCase) (w w1 w2 w3 : W) (wid : Z) (u : unit) (e : Error) :
  reachesLoop re [d1; d2; d3] ->
  invalid d1 = false ->
  post_workitem R (buildTestCaseBody d1) w = (inr wid, w1) ->
  post_suite R wid w1 = (inr u, w2) ->
  steps d2 = Some [] ->
  invalid d3 = false ->
  post_workitem R (buildTestCaseBody d3) w2 = (inl e, w3) ->
  main R re w
  = (mkExit 1 (Some (mkSummary 3 1 2
                       [ mkFailedEntry (id d2) (title d2) "Missing title or steps";
                         mkFailedEntry (id d3) (title d3) (message e) ])),
     mkClientState w3 [ CreateCall (buildTestCaseBody d1); SuiteCall wid;
                        CreateCall (buildTestCaseBody d3) ]).
Proof.
  intros Hready V1 C1 A1 S2 V3 C3.
  assert (I2 : invalid d2 = true) by (apply invalid_spec; auto).
  rewrite (main_reachesLoop R re _ w Hready).
  simpl forTestCases. unfold bind.
  rewrite processTestCase_specStep. unfold specStep at 1.
  cbn [world calls]. rewrite V1, C1, A1.
  rewrite processTestCase_specStep. unfold specStep at 1.
  cbn [world calls]. rewrite I2.
  rewrite processTestCase_specStep. unfold specStep at 1.
  cbn [world calls]. rewrite V3, C3.
  reflexivity.
Qed.

Lemma three_definitions_scenario_witness :
  main onceRemote (sampleRunEnv threeCases) 0%nat
  = (mkExit 1 (Some (mkSummary 3 1 2
                       [ mkFailedEntry (Some "TC-2") (Some "Search closes")
                                       "Missing title or steps";
                         mkFailedEntry (Some "TC-3") (Some "Search clears")
                                       "Request failed with status code 500" ])),
     mkClientState 2%nat [ CreateCall (buildTestCaseBody firstCase); SuiteCall 101;
                           CreateCall (buildTestCaseBody thirdCase) ]).
Proof.
  exact (three_definitions_scenario onceRemote (sampleRunEnv threeCases)
           firstCase noStepsCase thirdCase 0%nat 1%nat 1%nat 2%nat 101%Z tt
           (mkError "Request failed with status code 500")
           (sampleRunEnv_reachesLoop threeCases)
           eq_refl eq_refl eq_refl eq_refl eq_refl eq_refl).
Defined.

(** C3, counterexample to the claim as stated: in a run of that shape the
    outcomes are Created, Skipped, Failed, and the summary counts are
    created 1 and failed 2, not 1 and 1. *)
Lemma scenario_summary_counts_two_failed :
  specResults onceRemote threeCases 0%nat
  = [ Created 101; Skipped "Missing title or steps";
      Failed "Request failed with status code 500" ]
  /\ (exists s, summary (main onceRemote (sampleRunEnv threeCases) 0%nat).1 = Some s
                /\ created s = 1%nat /\ failed s = 2%nat)
  /\ ~ (exists s, summary (main onceRemote (sampleRunEnv threeCases) 0%nat).1 = Some s
                  /\ created s = 1%nat /\ failed s = 1%nat).
Proof.
  assert (E : summary (main onceRemote (sampleRunEnv threeCases) 0%nat).1
              = Some (mkSummary 3 1 2
                        [ mkFailedEntry (Some "TC-2") (Some "Search closes")
                                        "Missing title or steps";
                          mkFailedEntry (Some "TC-3") (Some "Search clears")
                                        "Request failed with status code 500" ]))
    by (vm_compute; reflexivity).
  split; [vm_compute; reflexivity |].
  split.
  - eexists. split; [exact E |]. split; reflexivity.
  - intros (s & Hs & _ & Hf). rewrite E in Hs. injection Hs as <-. discriminate Hf.
Qed.

(** ** Every definition, once, in order *)

(** C7. The loop over any list of definitions ends normally, whatever the
    remote system does: it handles the definitions one after the other in
    the order of the list, each with exactly one outcome (the counters grow
    by the length of the list together, the failed list grows by the
    entries of the skipped and failed definitions in order, the requests
    are those of each definition in order). When the create or the suite
    request of a definition throws, that definition alone is listed as
    failed with the message of the error, and the loop goes on with the
    next definition. *)
Theorem every_definition_one_outcome {W : Type} (R : Remote W) :
  (forall (testCases : list TestCase) (t : Tally) (st : ClientState W),
     exists t' w',
       forTestCases R testCases t st
       = (inr t', mkClientState w' (calls st ++ specCalls R testCases (world st)))
       /\ List.length (specResults R testCases (world st)) = List.length testCases
       /\ (successCount t' + failedCount t'
           = successCount t + failedCount t + List.length testCases)%nat
       /\ successCount t'
          = (successCount t + countOf isCreated (specResults R testCases (world st)))%nat
       /\ failedTestCases t' = failedTestCases t ++ specEntries R testCases (world st))
  /\ (forall (tc : TestCase) (rest : list TestCase) (t : Tally) (st : ClientState W)
             (e : Error) (w1 : W),
        invalid tc = false ->
        post_workitem R (buildTestCaseBody tc) (world st) = (inl e, w1) ->
        forTestCases R (tc :: rest) t st
        = forTestCases R rest
            (mkTally (successCount t) (failedCount t + 1)
                     (failedTestCases t ++ [mkFailedEntry (id tc) (title tc) (message e)]))
            (mkClientState w1 (calls st ++ [CreateCall (buildTestCaseBody tc)])))
  /\ (forall (tc : TestCase) (rest : list TestCase) (t : Tally) (st : ClientState W)
             (wid : Z) (e : Error) (w1 w2 : W),
        invalid tc = false ->
        post_workitem R (buildTestCaseBody tc) (world st) = (inr wid, w1) ->
        post_suite R wid w1 = (inl e, w2) ->
        forTestCases R (tc :: rest) t st
        = forTestCases R rest
            (mkTally (successCount t) (failedCount t + 1)
                     (failedTestCases t ++ [mkFailedEntry (id tc) (title tc) (message e)]))
            (mkClientState w2 (calls st ++ [CreateCall (buildTestCaseBody tc);
                                            SuiteCall wid]))).
Proof.
  split; [| split].
  - intros testCases t st.
    destruct (forTestCases_specRun R testCases t st) as (t' & w' & Hrun & Hs & Hf & Hl).
    exists t', w'. split; [exact Hrun |].
    split; [apply specResults_length |].
    split; [| split; [exact Hs | exact Hl]].
    pose proof (countOf_total (specResults R testCases (world st))) as Htot.
    rewrite specResults_length in Htot. lia.
  - intros tc rest t st e w1 V C.
    simpl forTestCases. unfold bind. rewrite processTestCase_specStep.
    unfold specStep. now rewrite V, C.
  - intros tc rest t st wid e w1 w2 V C A.
    simpl forTestCases. unfold bind. rewrite processTestCase_specStep.
    unfold specStep. now rewrite V, C, A.
Qed.

Lemma every_definition_one_outcome_witness :
  forTestCases onceRemote [thirdCase; firstCase] tally0 (mkClientState 1%nat [])
  = forTestCases onceRemote [firstCase]
      (mkTally 0 1 [mkFailedEntry (Some "TC-3") (Some "Search clears")
                                  "Request failed with status code 500"])
      (mkClientState 2%nat [CreateCall (buildTestCaseBody thirdCase)]).
Proof.
  exact (proj1 (proj2 (every_definition_one_outcome onceRemote))
           thirdCase [firstCase] tally0 (mkClientState 1%nat [])
           (mkError "Request failed with status code 500") 2%nat eq_refl eq_refl).
Defined.

(** ** Configuration *)

Example loadConfig_sample : _loadConfig sampleConfigEnv = inr sampleConfig.
Proof. vm_compute. reflexivity. Qed.

Example findup_sample : findup sampleConfigEnv "config.json" = Some "/repo/config.json".
Proof. reflexivity. Qed.

Lemma truthy_str_false (v : option string) :
  truthy_str v = false <-> v = None \/ v = Some "".
Proof.
  destruct v as [[|a s]|]; simpl; split; intros H; auto; try discriminate H;
    destruct H as [H | H]; discriminate H.
Qed.

Lemma truthy_val_false (v : option JsValue) :
  truthy_val v = false
  <-> v = None \/ v = Some JNull \/ v = Some (JBool false) \/ v = Some (JNum 0)
      \/ v = Some (JStr "").
Proof.
  split.
  - destruct v as [[| [|] | z | [|a s] |]|]; simpl; intros H; try discriminate H; auto 6.
    apply negb_false_iff, Z.eqb_eq in H. subst z. auto 6.
  - intros [-> | [-> | [-> | [-> | ->]]]]; reflexivity.
Qed.

(** A path found by [findup] is never the empty string. *)
Lemma findup_truthy (ce : ConfigEnv) (name : string) :
  truthy_str (findup ce name) = false <-> findup ce name = None.
Proof.
  split; [| intros ->; reflexivity].
  intros H. apply truthy_str_false in H as [H | H]; [exact H |].
  unfold findup in H. apply List.find_some in H as [Hin _].
  apply list_elem_of_In, list_elem_of_fmap in Hin as (dir & Heq & _).
  destruct dir; discriminate Heq.
Qed.

Lemma validateFields_error (l : list (string * option JsValue)) :
  (exists e, validateFields l = inl e)
  <-> Exists (fun fv => truthy_val fv.2 = false) l.
Proof.
  induction l as [|[f v] l IH]; simpl.
  - split; [intros (e & [=]) | intros H; inversion H].
  - destruct (truthy_val v) eqn:E; simpl.
    + rewrite IH. split; [now right |].
      intros H. inversion H as [? ? Hv | ? ? Hl]; subst; [| exact Hl].
      simpl in Hv. congruence.
    + split; [intros _; now left | eauto].
Qed.

Lemma missing_or_empty_falsy (ce : ConfigEnv) (file : gmap string JsValue) (f : string) :
  missing_or_empty ce file f -> truthy_val (nconf_get ce file f) = false.
Proof. unfold missing_or_empty. intros [-> | [-> | ->]]; reflexivity. Qed.

(** What [_loadConfig] does once the file is found at [p]. *)
Lemma loadConfig_found (ce : ConfigEnv) (p : string) :
  findup ce "config.json" = Some p ->
  _loadConfig ce =
  match file_content ce p with
  | inl e => inl e
  | inr file =>
      match validateFields ((fun f => (f, nconf_get ce file f)) <$> requiredNames) with
      | inl e => inl e
      | inr _ =>
          inr (mkConfig (nconf_get ce file "keyVaultUrl")
                        (nconf_get ce file "azureDevOpsPatSecretName")
                        (nconf_get ce file "azureDevOpsOrgUrl")
                        (nconf_get ce file "azureDevOpsProject")
                        (nconf_get ce file "azureDevOpsPlanId")
                        (nconf_get ce file "azureDevOpsSuiteId"))
      end
  end.
Proof.
  intros F. unfold _loadConfig.
  destruct (truthy_str (findup ce "config.json")) eqn:T.
  - rewrite F. reflexivity.
  - apply findup_truthy in T. congruence.
Qed.

(** C8, as the code has it. The configuration resolver throws exactly when
    [config.json] is not found by the upward search, or it cannot be read
    as JSON, or one of the six required fields is falsy in the stacked
    stores: missing, [null], empty, but also [0] or [false]. Otherwise it
    returns the record of the six fields, each with its truthy value. A
    thrown error ends the run with exit code 1 before any request. *)
Theorem loadConfig_error_iff (ce : ConfigEnv) :
  ((exists e, _loadConfig ce = inl e)
   <-> findup ce "config.json" = None
       \/ exists p, findup ce "config.json" = Some p
                    /\ ((exists e, file_content ce p = inl e)
                        \/ exists file f, file_content ce p = inr file
                             /\ f ∈ requiredNames
                             /\ truthy_val (nconf_get ce file f) = false))
  /\ (forall v : option JsValue,
        truthy_val v = false
        <-> v = None \/ v = Some JNull \/ v = Some (JBool false) \/ v = Some (JNum 0)
            \/ v = Some (JStr ""))
  /\ (forall cfg, _loadConfig ce = inr cfg ->
        exists p file, findup ce "config.json" = Some p
          /\ file_content ce p = inr file
          /\ entries cfg = (fun f => (f, nconf_get ce file f)) <$> requiredNames
          /\ Forall (fun fv => truthy_val fv.2 = true) (entries cfg))
  /\ (forall (W : Type) (R : Remote W) (re : RunEnv) (w : W) (e : Error),
        config_env re = ce -> _loadConfig ce = inl e ->
        main R re w = (mkExit 1 None, mkClientState w [])).
Proof.
  split; [| split; [exact truthy_val_false | split]].
  - destruct (findup ce "config.json") as [p|] eqn:F.
    + rewrite (loadConfig_found ce p F).
      destruct (file_content ce p) as [e0 | file] eqn:C.
      { split; [intros _; right; exists p; eauto | eauto]. }
      pose proof (validateFields_error ((fun f => (f, nconf_get ce file f)) <$> requiredNames))
        as HV.
      rewrite Exists_fmap, Exists_exists in HV.
      split.
      * intros (e & He). right. exists p. split; [reflexivity |]. right.
        destruct (validateFields _) as [e' |] eqn:E; [| discriminate He].
        destruct (proj1 HV (ex_intro _ e' eq_refl)) as (f & Hin & Hf).
        exists file, f. auto.
      * intros [H | (p' & [= <-] & [(e & He) | (file' & f & Hfc & Hin & Hf)])];
          [discriminate H | congruence |].
        assert (file' = file) by congruence. subst file'.
        destruct (proj2 HV (ex_intro _ f (conj Hin Hf))) as (e & ->). eauto.
    + split; [now left |]. intros _.
      unfold _loadConfig. rewrite F. simpl. eauto.
  - intros cfg H. destruct (findup ce "config.json") as [p|] eqn:F.
    + rewrite (loadConfig_found ce p F) in H.
      destruct (file_content ce p) as [e0 | file] eqn:C; [discriminate H |].
      exists p, file. split; [reflexivity |]. split; [exact C |].
      destruct (validateFields _) as [e |] eqn:E; [discriminate H |].
      injection H as <-. split; [reflexivity |].
      change (Forall (fun fv => truthy_val fv.2 = true)
                ((fun f => (f, nconf_get ce file f)) <$> requiredNames)).
      apply Forall_forall. intros fv Hin.
      destruct (truthy_val fv.2) eqn:T; [reflexivity |].
      assert (Hex : exists e, validateFields
                  ((fun f => (f, nconf_get ce file f)) <$> requiredNames) = inl e).
      { apply validateFields_error, Exists_exists. eauto. }
      destruct Hex as (e & He). congruence.
    + unfold _loadConfig in H. rewrite F in H. discriminate H.
  - intros W R re w e Hce He.
    unfold main, mainBody, bind, initialize. rewrite Hce, He. reflexivity.
Qed.

Lemma loadConfig_error_iff_witness :
  exists p file, findup sampleConfigEnv "config.json" = Some p
    /\ file_content sampleConfigEnv p = inr file
    /\ entries sampleConfig
       = (fun f => (f, nconf_get sampleConfigEnv file f)) <$> requiredNames
    /\ Forall (fun fv => truthy_val fv.2 = true) (entries sampleConfig).
Proof.
  exact (proj1 (proj2 (proj2 (loadConfig_error_iff sampleConfigEnv))) _ loadConfig_sample).
Defined.

(** C8, counterexample to the claim as stated: with the plan identifier
    [0] in a [config.json] that is found and read, no required field is
    missing or empty, and the resolver throws all the same; and a
    [config.json] that is found but is not JSON makes it throw as well. *)
Lemma loadConfig_rejects_zero_plan :
  findup zeroPlanEnv "config.json" = Some "/repo/config.json"
  /\ file_content zeroPlanEnv "/repo/config.json" = inr zeroPlanStore
  /\ Forall (fun f => ~ missing_or_empty zeroPlanEnv zeroPlanStore f) requiredNames
  /\ _loadConfig zeroPlanEnv
     = inl (mkError "Missing required configuration: azureDevOpsPlanId")
  /\ findup brokenFileEnv "config.json" = Some "/repo/config.json"
  /\ _loadConfig brokenFileEnv = inl (mkError "Error parsing your configuration file").
Proof.
  split; [reflexivity |]. split; [reflexivity |].
  split; [| split; [vm_compute; reflexivity | split; reflexivity]].
  repeat constructor; intros [H | [H | H]]; vm_compute in H; discriminate H.
Qed.

(** With the project name left empty in an otherwise complete file the
    resolver throws, naming the field. *)
Example loadConfig_empty_project :
  _loadConfig partialConfigEnv
  = inl (mkError "Missing required configuration: azureDevOpsProject").
Proof. vm_compute. reflexivity. Qed.

Example loadConfig_not_found :
  _loadConfig (mkConfigEnv ["/repo/tests"; "/repo"; ""] (fun _ => false) ∅ ∅
                           (fun _ => inr sampleStore))
  = inl (mkError "Cannot find the config file config.json").
Proof. reflexivity. Qed.

(** ** The retry helper *)

Section Retry.
Import Helpers.
Context {W T : Type} (action : W -> (Error + T) * W) (sleep : Z -> W -> W).
Context (maxRetries initialDelay : Z).

Lemma attempts_app (a b : list (RetryEvent T)) :
  attempts (a ++ b) = (attempts a + attempts b)%nat.
Proof. unfold attempts. now rewrite List.filter_app, length_app. Qed.

Lemma attempts_backoff (k : nat) (errors : list Error) :
  attempts (backoff (T := T) initialDelay k errors) = List.length errors.
Proof.
  revert k. induction errors as [|e errors IH]; intros k; [reflexivity |].
  simpl. unfold attempts in *. simpl. now rewrite IH.
Qed.

Lemma consistent_app (w w1 w2 : W) (a b : list (RetryEvent T)) :
  consistent action sleep w a w1 -> consistent action sleep w1 b w2 ->
  consistent action sleep w (a ++ b) w2.
Proof.
  revert w. induction a as [|ev a IH]; intros w Ha Hb; simpl in *.
  - now subst.
  - destruct ev as [r | d]; [destruct Ha as [Hr Ha]; split; [exact Hr |] |]; eauto.
Qed.

(** The loop from iteration [k] on, with enough fuel left: it settles, and
    what it appends to the trace has one of three shapes. *)
Lemma retryLoop_from (fuel k : nat) (lastError : option Error) (w : W)
    (tr0 : list (RetryEvent T)) :
  (Z.to_nat (maxRetries - Z.of_nat k) < fuel)%nat ->
  exists res w' tr,
    retryLoop action sleep maxRetries initialDelay fuel (Z.of_nat k) lastError w tr0
    = Some (res, w', tr0 ++ tr)
    /\ consistent action sleep w tr w'
    /\ ((exists errors v,
           (Z.of_nat (List.length errors) < maxRetries - Z.of_nat k)%Z
           /\ tr = backoff initialDelay k errors ++ [Attempt (inr v)]
           /\ res = Returned v)
        \/ (exists errors e,
              (Z.of_nat (List.length errors) + 1 = maxRetries - Z.of_nat k)%Z
              /\ tr = backoff initialDelay k errors ++ [Attempt (inl e)]
              /\ res = Rethrown (Some e))
        \/ ((maxRetries - Z.of_nat k <= 0)%Z /\ tr = [] /\ res = Rethrown lastError)).
Proof.
  revert k lastError w tr0.
  induction fuel as [|fuel IH]; intros k lastError w tr0 Hfuel; [lia |].
  simpl retryLoop.
  destruct (Z.of_nat k <? maxRetries)%Z eqn:Hguard.
  2:{ apply Z.ltb_ge in Hguard. exists (Rethrown lastError), w, [].
      rewrite app_nil_r. split; [reflexivity |]. split; [reflexivity |].
      right; right. repeat split; lia. }
  apply Z.ltb_lt in Hguard.
  destruct (action w) as [[e | v] w1] eqn:Hact.
  2:{ exists (Returned v), w1, [Attempt (inr v)].
      split; [reflexivity |].
      split; [simpl; rewrite Hact; now split |].
      left. exists [], v. simpl. repeat split; lia. }
  replace (Z.of_nat k + 1)%Z with (Z.of_nat (S k)) by lia.
  destruct (Z.of_nat k <? maxRetries - 1)%Z eqn:Hlast.
  - apply Z.ltb_lt in Hlast.
    destruct (IH (S k) (Some e) (sleep (initialDelay * 2 ^ Z.of_nat k) w1)
                 ((tr0 ++ [Attempt (inl e)]) ++ [Wait (initialDelay * 2 ^ Z.of_nat k)%Z]))
      as (res & w' & tr & Hrun & Hcons & Hshape); [lia |].
    exists res, w', (Attempt (inl e) :: Wait (initialDelay * 2 ^ Z.of_nat k)%Z :: tr).
    split; [rewrite Hrun; do 2 f_equal; now rewrite <- !app_assoc |].
    split; [simpl; rewrite Hact; now split |].
    destruct Hshape as [(errors & v & Hlen & -> & ->)
                       | [(errors & e' & Hlen & -> & ->) | (Hle & _ & _)]].
    + left. exists (e :: errors), v. simpl. repeat split; lia.
    + right; left. exists (e :: errors), e'. simpl. repeat split; lia.
    + lia.
  - apply Z.ltb_ge in Hlast.
    destruct (IH (S k) (Some e) w1 (tr0 ++ [Attempt (inl e)]))
      as (res & w' & tr & Hrun & Hcons & Hshape); [lia |].
    destruct Hshape as [(errors & v & Hlen & _ & _)
                       | [(errors & e' & Hlen & _ & _) | (_ & -> & ->)]]; [lia | lia |].
    exists (Rethrown (Some e)), w', [Attempt (inl e)].
    rewrite app_nil_r in Hrun. split; [exact Hrun |].
    split; [simpl in *; rewrite Hact; now split |].
    right; left. exists [], e. simpl. repeat split; lia.
Qed.

End Retry.

Example retryAction_flaky_default :
  Helpers.retryAction Helpers.flaky Helpers.idle None None 0%nat
  = Some (Helpers.Returned 2%nat, 3%nat,
          [ Helpers.Attempt (inl (mkError "busy")); Helpers.Wait 1000;
            Helpers.Attempt (inl (mkError "busy")); Helpers.Wait 2000;
            Helpers.Attempt (inr 2%nat) ]).
Proof. reflexivity. Qed.

Example retryAction_flaky_two :
  Helpers.retryAction Helpers.flaky Helpers.idle (Some 2%Z) (Some 50%Z) 0%nat
  = Some (Helpers.Rethrown (Some (mkError "busy")), 2%nat,
          [ Helpers.Attempt (inl (mkError "busy")); Helpers.Wait 50;
            Helpers.Attempt (inl (mkError "busy")) ]).
Proof. reflexivity. Qed.

Example retryAction_flaky_none :
  Helpers.retryAction Helpers.flaky Helpers.idle (Some (-1)%Z) None 0%nat
  = Some (Helpers.Rethrown None, 0%nat, []).
Proof. reflexivity. Qed.

(** C9. [retryAction] always settles. It invokes the action at most
    [maxRetries] times. Either some attempt succeeds: every attempt before
    it failed, the failed attempt number [k] (from 0) was followed by a
    pause of [initialDelay * 2^k], nothing follows the successful attempt,
    and its result is returned. Or all [maxRetries] attempts fail: each but
    the last is followed by its pause, the last by none, and the error of
    the last attempt is rethrown. With [maxRetries] not positive the action
    is never invoked and [undefined] is thrown. *)
Theorem retryAction_backoff {W T : Type} (action : W -> (Error + T) * W)
    (sleep : Z -> W -> W) (maxRetries initialDelay : option Z) (w : W) :
  exists res w' tr,
    Helpers.retryAction action sleep maxRetries initialDelay w = Some (res, w', tr)
    /\ Helpers.consistent action sleep w tr w'
    /\ (Helpers.attempts tr <= Z.to_nat (default 3%Z maxRetries))%nat
    /\ ((exists errors v,
           (Z.of_nat (List.length errors) < default 3%Z maxRetries)%Z
           /\ tr = Helpers.backoff (default 1000%Z initialDelay) 0 errors
                   ++ [Helpers.Attempt (inr v)]
           /\ res = Helpers.Returned v)
        \/ (exists errors e,
              (Z.of_nat (List.length errors) + 1 = default 3%Z maxRetries)%Z
              /\ tr = Helpers.backoff (default 1000%Z initialDelay) 0 errors
                      ++ [Helpers.Attempt (inl e)]
              /\ res = Helpers.Rethrown (Some e))
        \/ ((default 3%Z maxRetries <= 0)%Z /\ tr = []
            /\ res = Helpers.Rethrown None)).
Proof.
  unfold Helpers.retryAction.
  set (n := default 3%Z maxRetries). set (d := default 1000%Z initialDelay).
  destruct (retryLoop_from action sleep n d (S (Z.to_nat n)) 0 None w [])
    as (res & w' & tr & Hrun & Hcons & Hshape); [simpl; lia |].
  exists res, w', tr. simpl in Hrun. split; [exact Hrun |]. split; [exact Hcons |].
  simpl Z.of_nat in Hshape. rewrite Z.sub_0_r in Hshape.
  split; [| exact Hshape].
  destruct Hshape as [(errors & v & Hlen & -> & _)
                     | [(errors & e & Hlen & -> & _) | (_ & -> & _)]].
  - rewrite attempts_app, attempts_backoff. unfold Helpers.attempts. simpl. lia.
  - rewrite attempts_app, attempts_backoff. unfold Helpers.attempts. simpl. lia.
  - unfold Helpers.attempts. simpl. lia.
Qed.

(* ===================================================================== *)
(** * Further properties *)
(* ===================================================================== *)

(** ** The escaper *)

Lemma length_append (a b : string) :
  String.length (a +:+ b) = (String.length a + String.length b)%nat.
Proof. induction a as [|c a IH]; simpl; [reflexivity | now rewrite IH]. Qed.

Lemma escapeEach_append (a b : string) :
  escapeEach (a +:+ b) = escapeEach a +:+ escapeEach b.
Proof.
  induction a as [|c a IH]; [reflexivity |].
  simpl. now rewrite IH, append_assoc.
Qed.

(** X1. Escaping a concatenation is the concatenation of the escaped
    parts; an absent string escapes like the empty one. *)
Theorem xmlEscape_append (a b : string) :
  xmlEscape (Some (a +:+ b)) = xmlEscape (Some a) +:+ xmlEscape (Some b)
  /\ xmlEscape None = xmlEscape (Some "").
Proof.
  rewrite !xmlEscape_escapeEach. split; [apply escapeEach_append | reflexivity].
Qed.

Lemma unescapeFrom_O (c : ascii) (rest : string) :
  unescapeFrom 0 (String c rest) =
  if Ascii.eqb c "&" then
    if String.prefix "amp;" rest then String "&" (unescapeFrom 4 rest)
    else if String.prefix "lt;" rest then String "<" (unescapeFrom 3 rest)
    else if String.prefix "gt;" rest then String ">" (unescapeFrom 3 rest)
    else String c (unescapeFrom 0 rest)
  else String c (unescapeFrom 0 rest).
Proof. reflexivity. Qed.

Lemma unescape_amp (e : string) :
  unescapeFrom 0 ("&amp;" +:+ e) = String "&" (unescapeFrom 0 e).
Proof.
  change ("&amp;" +:+ e) with (String "&" (String "a" (String "m" (String "p" (String ";" e))))).
  rewrite unescapeFrom_O. change (Ascii.eqb "&" "&") with true. cbv iota.
  rewrite !prefix_head_eq, prefix_empty. reflexivity.
Qed.

Lemma unescape_lt (e : string) :
  unescapeFrom 0 ("&lt;" +:+ e) = String "<" (unescapeFrom 0 e).
Proof.
  change ("&lt;" +:+ e) with (String "&" (String "l" (String "t" (String ";" e)))).
  rewrite unescapeFrom_O. change (Ascii.eqb "&" "&") with true. cbv iota.
  rewrite (prefix_head_ne "a" "l") by discriminate.
  rewrite !prefix_head_eq, prefix_empty. reflexivity.
Qed.

Lemma unescape_gt (e : string) :
  unescapeFrom 0 ("&gt;" +:+ e) = String ">" (unescapeFrom 0 e).
Proof.
  change ("&gt;" +:+ e) with (String "&" (String "g" (String "t" (String ";" e)))).
  rewrite unescapeFrom_O. change (Ascii.eqb "&" "&") with true. cbv iota.
  rewrite (prefix_head_ne "a" "g"), (prefix_head_ne "l" "g") by discriminate.
  rewrite !prefix_head_eq, prefix_empty. reflexivity.
Qed.

Lemma unescape_escapeEach (s : string) : xmlUnescape (escapeEach s) = s.
Proof.
  unfold xmlUnescape. induction s as [|c s IH]; [reflexivity |].
  simpl escapeEach. unfold escapeChar.
  destruct (Ascii.eqb c "&") eqn:Eamp.
  { apply Ascii.eqb_eq in Eamp; subst c. now rewrite unescape_amp, IH. }
  destruct (Ascii.eqb c "<") eqn:Elt.
  { apply Ascii.eqb_eq in Elt; subst c. now rewrite unescape_lt, IH. }
  destruct (Ascii.eqb c ">") eqn:Egt.
  { apply Ascii.eqb_eq in Egt; subst c. now rewrite unescape_gt, IH. }
  change (String c "" +:+ escapeEach s) with (String c (escapeEach s)).
  rewrite unescapeFrom_O, Eamp, IH. reflexivity.
Qed.

(** X2. Escaping loses nothing: resolving the three entity references in
    the escaped text gives the original string back, so two different
    strings never escape to the same text. *)
Theorem xmlEscape_round_trip :
  (forall s : string, xmlUnescape (xmlEscape (Some s)) = s)
  /\ (forall a b : string, xmlEscape (Some a) = xmlEscape (Some b) -> a = b).
Proof.
  assert (RT : forall s, xmlUnescape (xmlEscape (Some s)) = s)
    by (intros s; rewrite xmlEscape_escapeEach; apply unescape_escapeEach).
  split; [exact RT |].
  intros a b H. rewrite <- (RT a), <- (RT b). now rewrite H.
Qed.

Lemma xmlEscape_round_trip_witness :
  xmlUnescape (xmlEscape (Some "a&lt;b < c &amp;")) = "a&lt;b < c &amp;"
  /\ ("R&D" = "R&D").
Proof.
  split.
  - exact (proj1 xmlEscape_round_trip "a&lt;b < c &amp;").
  - exact (proj2 xmlEscape_round_trip "R&D" "R&D" eq_refl).
Defined.

(** X3. The escaped text is longer than the input by four characters for
    each [&] and three for each [<] and each [>]. *)
Theorem xmlEscape_length (s : string) :
  String.length (xmlEscape (Some s))
  = (String.length s + 4 * countChar "&" s + 3 * countChar "<" s
     + 3 * countChar ">" s)%nat.
Proof.
  rewrite xmlEscape_escapeEach.
  induction s as [|c s IH]; [reflexivity |].
  simpl escapeEach. rewrite length_append, IH. unfold escapeChar.
  cbn [countChar String.length].
  destruct (Ascii.eqb c "&") eqn:Eamp.
  { apply Ascii.eqb_eq in Eamp; subst c. cbn. lia. }
  destruct (Ascii.eqb c "<") eqn:Elt.
  { apply Ascii.eqb_eq in Elt; subst c. cbn. lia. }
  destruct (Ascii.eqb c ">") eqn:Egt.
  { apply Ascii.eqb_eq in Egt; subst c. cbn. lia. }
  cbn. lia.
Qed.

Lemma countChar_zero (c : ascii) (s : string) :
  countChar c s = 0%nat <-> all_chars (fun a => negb (Ascii.eqb a c)) s = true.
Proof.
  induction s as [|a s IH]; simpl; [tauto |].
  destruct (Ascii.eqb a c); simpl; [split; [lia | discriminate] | exact IH].
Qed.

Lemma clean_counts (s : string) :
  all_chars (fun a => negb (isMarkupChar a)) s = true
  <-> countChar "&" s = 0%nat /\ countChar "<" s = 0%nat /\ countChar ">" s = 0%nat.
Proof.
  induction s as [|a s IH]; simpl; [tauto |]. unfold isMarkupChar.
  destruct (Ascii.eqb a "&"), (Ascii.eqb a "<"), (Ascii.eqb a ">"); simpl;
    try (split; [discriminate | lia]).
  exact IH.
Qed.

Lemma escapeEach_clean (s : string) :
  all_chars (fun a => negb (isMarkupChar a)) s = true -> escapeEach s = s.
Proof.
  induction s as [|a s IH]; simpl; [reflexivity |]. unfold isMarkupChar, escapeChar.
  destruct (Ascii.eqb a "&"), (Ascii.eqb a "<"), (Ascii.eqb a ">"); simpl;
    try discriminate.
  intros H. now rewrite IH.
Qed.

(** X4. The escaper returns its input unchanged exactly when the input
    holds none of [&], [<], [>]; in particular escaping a second time
    changes every text that the first pass changed. *)
Theorem xmlEscape_unchanged_iff (s : string) :
  (xmlEscape (Some s) = s <-> all_chars (fun a => negb (isMarkupChar a)) s = true)
  /\ (xmlEscape (Some (xmlEscape (Some s))) = xmlEscape (Some s)
      <-> xmlEscape (Some s) = s).
Proof.
  assert (Hiff : forall r, xmlEscape (Some r) = r
                           <-> all_chars (fun a => negb (isMarkupChar a)) r = true).
  { intros r. split.
    - intros H. apply (f_equal String.length) in H. rewrite xmlEscape_length in H.
      apply clean_counts. lia.
    - intros H. rewrite xmlEscape_escapeEach. now apply escapeEach_clean. }
  split; [apply Hiff |].
  split.
  - intros H. now apply (proj2 xmlEscape_round_trip) in H.
  - intros H. now rewrite !H.
Qed.

Lemma countChar_append (c : ascii) (a b : string) :
  countChar c (a +:+ b) = (countChar c a + countChar c b)%nat.
Proof. induction a as [|x a IH]; simpl; [reflexivity | rewrite IH; lia]. Qed.

(** X5. The escaped text never holds a raw [<] or [>], and it holds one
    [&] for each [&], [<] and [>] of the input: every ampersand in it
    starts one of the three entity references. *)
Theorem xmlEscape_no_raw_markup (s : string) :
  countChar "<" (xmlEscape (Some s)) = 0%nat
  /\ countChar ">" (xmlEscape (Some s)) = 0%nat
  /\ countChar "&" (xmlEscape (Some s))
     = (countChar "&" s + countChar "<" s + countChar ">" s)%nat.
Proof.
  rewrite xmlEscape_escapeEach.
  induction s as [|c s (IH1 & IH2 & IH3)]; [repeat split |].
  simpl escapeEach. rewrite !countChar_append, IH1, IH2, IH3. unfold escapeChar.
  cbn [countChar].
  destruct (Ascii.eqb c "&") eqn:Eamp.
  { apply Ascii.eqb_eq in Eamp; subst c. cbn. repeat split; lia. }
  destruct (Ascii.eqb c "<") eqn:Elt.
  { apply Ascii.eqb_eq in Elt; subst c. cbn. repeat split; lia. }
  destruct (Ascii.eqb c ">") eqn:Egt.
  { apply Ascii.eqb_eq in Egt; subst c. cbn. repeat split; lia. }
  cbn [countChar]. rewrite Eamp, Elt, Egt. repeat split; lia.
Qed.

(** ** Tags and body *)

Lemma tagParts_parts (tc : TestCase) :
  tagParts tc =
  List.filter (fun t => negb (String.eqb t "")) (default [] (tags tc))
  ++ (if truthy_str (id tc) then ["LogicalID:" +:+ default "" (id tc)] else [])
  ++ (if truthy_str (category tc) then ["Category:" +:+ default "" (category tc)] else []).
Proof.
  unfold tagParts, tagCandidates.
  rewrite filterBoolean_app, filterBoolean_explicit. f_equal.
  destruct (id tc) as [[|a i]|], (category tc) as [[|b c]|]; reflexivity.
Qed.

Lemma join_nonempty (sep x : string) (l : list string) :
  x <> "" -> join sep (x :: l) <> "".
Proof.
  intros Hx. unfold join. destruct x as [|a x]; [contradiction |].
  destruct l; simpl; discriminate.
Qed.

Lemma filter_nonempty_nil (l : list string) :
  List.filter (fun t => negb (String.eqb t "")) l = [] <-> Forall (fun t => t = "") l.
Proof.
  induction l as [|t l IH]; simpl; [split; [constructor | reflexivity] |].
  destruct t as [|a t]; simpl.
  - rewrite IH. split; [now constructor | now inversion 1].
  - split; [discriminate | inversion 1; discriminate].
Qed.

Lemma filter_nonempty_all (l : list string) :
  Forall (fun t => t <> "") (List.filter (fun t => negb (String.eqb t "")) l).
Proof.
  induction l as [|t l IH]; simpl; [constructor |].
  destruct t as [|a t]; simpl; [exact IH | constructor; [discriminate | exact IH]].
Qed.

(** X6. No part of the tag string is empty, and the tag string is empty
    exactly when every explicit tag is empty (or there is none) and both
    [id] and [category] are absent or empty. *)
Theorem buildTags_empty_iff (tc : TestCase) :
  Forall (fun t => t <> "") (tagParts tc)
  /\ (buildTags tc = ""
      <-> Forall (fun t => t = "") (default [] (tags tc))
          /\ truthy_str (id tc) = false /\ truthy_str (category tc) = false).
Proof.
  assert (Hall : Forall (fun t => t <> "") (tagParts tc)).
  { rewrite tagParts_parts. apply Forall_app. split; [apply filter_nonempty_all |].
    apply Forall_app. split.
    - destruct (truthy_str (id tc)); constructor; [discriminate | constructor].
    - destruct (truthy_str (category tc)); constructor; [discriminate | constructor]. }
  split; [exact Hall |].
  unfold buildTags. split.
  - intros H. destruct (tagParts tc) as [|x l] eqn:E.
    + rewrite tagParts_parts in E.
      apply app_eq_nil in E as [E1 E2]. apply app_eq_nil in E2 as [E2 E3].
      split; [now apply filter_nonempty_nil |].
      destruct (truthy_str (id tc)), (truthy_str (category tc)); try discriminate.
      now split.
    + inversion Hall as [|? ? Hx _]; subst. now apply join_nonempty in H.
  - intros (Ht & Hi & Hc). rewrite tagParts_parts, Hi, Hc.
    apply filter_nonempty_nil in Ht. now rewrite Ht.
Qed.

(** ** Requests and summary of a run *)

Section RunFacts.
Context {W : Type} (R : Remote W).

(** The four ways one definition can go. *)
Lemma specStep_cases (tc : TestCase) (w w' : W) (r : SyncResult) (cs : list RemoteCall) :
  specStep R tc w = (r, cs, w') ->
  (invalid tc = true /\ isSkipped r = true /\ cs = [])
  \/ (invalid tc = false /\ isFailed r = true
      /\ cs = [CreateCall (buildTestCaseBody tc)])
  \/ (invalid tc = false /\ isFailed r = true
      /\ exists wid, cs = [CreateCall (buildTestCaseBody tc); SuiteCall wid])
  \/ (invalid tc = false /\ isCreated r = true
      /\ exists wid, cs = [CreateCall (buildTestCaseBody tc); SuiteCall wid]).
Proof.
  unfold specStep. destruct (invalid tc) eqn:V.
  - intros [= <- <- <-]. now left.
  - destruct (post_workitem R (buildTestCaseBody tc) w) as [[e | wid] w1].
    + intros [= <- <- <-]. right; left. now repeat split.
    + destruct (post_suite R wid w1) as [[e | u] w2]; intros [= <- <- <-].
      * right; right; left. repeat split. now exists wid.
      * right; right; right. repeat split. now exists wid.
Qed.

Lemma countCalls_app (p : RemoteCall -> bool) (a b : list RemoteCall) :
  countCalls p (a ++ b) = (countCalls p a + countCalls p b)%nat.
Proof. unfold countCalls. now rewrite List.filter_app, length_app. Qed.

(** What the requests, outcomes and entries of a run add up to. *)
Lemma specRun_counts (testCases : list TestCase) (w : W) :
  wellPaired (specCalls R testCases w) = true
  /\ countCalls isCreateCall (specCalls R testCases w)
     = List.length (validOnes testCases)
  /\ (countOf isCreated (specResults R testCases w)
      <= countCalls isSuiteCall (specCalls R testCases w)
      <= countCalls isCreateCall (specCalls R testCases w))%nat
  /\ List.length (specEntries R testCases w)
     = (countOf isSkipped (specResults R testCases w)
        + countOf isFailed (specResults R testCases w))%nat
  /\ (countOf isCreated (specResults R testCases w) = List.length testCases ->
      List.length (specCalls R testCases w) = (2 * List.length testCases)%nat).
Proof.
  revert w. induction testCases as [|tc rest IH]; intros w.
  - repeat split; try reflexivity; unfold countCalls; simpl; lia.
  - destruct (specStep R tc w) as [[r cs] w1] eqn:E.
    destruct (specRun_cons R tc rest _ _ _ _ E) as (-> & -> & ->).
    destruct (IH w1) as (Hp & Hc & Hs & He & Hall).
    pose proof (countOf_total (specResults R rest w1)) as Htot.
    rewrite specResults_length in Htot.
    rewrite !countCalls_app, !countOf_cons, !length_app. unfold validOnes in *.
    cbn [List.filter].
    destruct (specStep_cases tc w w1 r cs E)
      as [(V & Hr & ->) | [(V & Hr & ->) | [(V & Hr & wid & ->) | (V & Hr & wid & ->)]]];
      rewrite V; destruct r; try discriminate Hr;
      cbn [isCreated isSkipped isFailed entryOf negb List.length app];
      unfold countCalls in *;
      cbn [List.filter isCreateCall isSuiteCall List.length];
      (split; [| split; [| split; [| split]]]); try lia.
    all: try (cbn [app wellPaired];
              first [exact Hp
                    | destruct (specCalls R rest w1) as [|[b|i] l];
                      [reflexivity | exact Hp | discriminate Hp]]).
    all: intros Hcr; rewrite Hall; lia.
Qed.

(** A definition whose body is submitted passed the validation guard. *)
Lemma specCalls_bodies (testCases : list TestCase) (w : W) :
  Forall (fun c => match c with
                   | CreateCall b =>
                       exists tc, In tc testCases /\ invalid tc = false
                                  /\ b = buildTestCaseBody tc
                   | SuiteCall _ => True
                   end) (specCalls R testCases w).
Proof.
  revert w. induction testCases as [|tc rest IH]; intros w; [constructor |].
  destruct (specStep R tc w) as [[r cs] w1] eqn:E.
  destruct (specRun_cons R tc rest _ _ _ _ E) as (_ & -> & _).
  apply Forall_app. split.
  - destruct (specStep_cases tc w w1 r cs E)
      as [(V & _ & ->) | [(V & _ & ->) | [(V & _ & wid & ->) | (V & _ & wid & ->)]]];
      repeat constructor; exists tc; (split; [now left | now split]).
  - eapply Forall_impl; [apply IH |]. intros [b | i]; [| trivial].
    intros (tc' & Hin & Hv & Hb). exists tc'. split; [now right | now split].
Qed.

End RunFacts.

Section RunProperties.
Context {W : Type} (R : Remote W).

(** Either the run gets as far as the loop or nothing was reached. *)
Lemma reachesLoop_or_fatal (re : RunEnv) (w : W) :
  (exists testCases, reachesLoop re testCases)
  \/ main R re w = (mkExit 1 None, mkClientState w []).
Proof.
  unfold main, mainBody, bind, initialize, reachesLoop.
  destruct (_loadConfig (config_env re)) as [e | cfg]; [now right |].
  destruct (_fetchSecrets re) as [e | pat]; [now right |].
  unfold ret at 1.
  destruct (payload re) as [e | [testCases |]]; [now right | | now right].
  left. exists testCases. eauto.
Qed.

(** X8. When the run does not get as far as the loop (the configuration,
    the secret or the test-case file fails), it exits with code 1, prints
    no summary and has sent no request to the remote system. *)
Theorem setup_failure_sends_nothing (re : RunEnv) (w : W) :
  (forall testCases, ~ reachesLoop re testCases) ->
  main R re w = (mkExit 1 None, mkClientState w []).
Proof.
  intros Hnot.
  destruct (reachesLoop_or_fatal re w) as [(testCases & Hready) | E]; [| exact E].
  destruct (Hnot testCases Hready).
Qed.

(** X9. In every summary the total is the sum of the created and the
    failed count, the list of failed test cases has as many entries as the
    failed count says, and the exit code is 0 exactly when that count is 0. *)
Theorem summary_adds_up (re : RunEnv) (w : W) (s : Summary) :
  summary (main R re w).1 = Some s ->
  total s = (created s + failed s)%nat
  /\ List.length (listed s) = failed s
  /\ exit_code (main R re w).1 = (if (failed s =? 0)%nat then 0 else 1)%Z.
Proof.
  intros Hs.
  destruct (reachesLoop_or_fatal re w) as [(testCases & Hready) | E];
    [| rewrite E in Hs; discriminate Hs].
  destruct (main_summary R re testCases w Hready) as (w' & E). rewrite E in *.
  cbn [fst summary exit_code] in *. injection Hs as <-. cbn [total created failed listed].
  destruct (specRun_counts R testCases w) as (_ & _ & _ & He & _).
  pose proof (countOf_total (specResults R testCases w)) as Htot.
  rewrite specResults_length in Htot.
  split; [lia |]. split; [exact He |].
  destruct (countOf isSkipped (specResults R testCases w)
            + countOf isFailed (specResults R testCases w))%nat; reflexivity.
Qed.

(** X10. In every run each suite request comes directly after a create
    request: no work item is linked without having just been created, and
    there are never more suite requests than create requests. *)
Theorem requests_well_paired (re : RunEnv) (w : W) :
  wellPaired (calls (main R re w).2) = true
  /\ (countCalls isSuiteCall (calls (main R re w).2)
      <= countCalls isCreateCall (calls (main R re w).2))%nat.
Proof.
  destruct (reachesLoop_or_fatal re w) as [(testCases & Hready) | ->];
    [| split; [reflexivity | unfold countCalls; simpl; lia]].
  destruct (main_summary R re testCases w Hready) as (w' & ->). cbn [snd calls].
  destruct (specRun_counts R testCases w) as (Hp & _ & Hs & _). split; [exact Hp | lia].
Qed.


(** X12. Every create request of a run carries the body built from a
    definition of the file that has a non-empty title and at least one
    step; an invalid definition is never submitted. *)
Theorem create_requests_are_valid (re : RunEnv) (w : W) :
  Forall (fun c => match c with
                   | CreateCall b =>
                       exists testCases tc a t x l,
                         payload re = inr (Some testCases) /\ In tc testCases
                         /\ title tc = Some (String a t) /\ steps tc = Some (x :: l)
                         /\ b = buildTestCaseBody tc
                   | SuiteCall _ => True
                   end) (calls (main R re w).2).
Proof.
  destruct (reachesLoop_or_fatal re w) as [(testCases & Hready) | ->]; [| constructor].
  destruct (main_summary R re testCases w Hready) as (w' & ->). cbn [snd calls].
  eapply Forall_impl; [apply specCalls_bodies |].
  intros [b | i]; [| trivial]. intros (tc & Hin & Hv & ->).
  destruct Hready as (_ & _ & Hp).
  unfold invalid in Hv. destruct (title tc) as [[|a t]|] eqn:Ht; try discriminate Hv.
  destruct (steps tc) as [[|x l]|] eqn:Hs; try discriminate Hv.
  exists testCases, tc, a, t, x, l. auto.
Qed.

End RunProperties.

Lemma summary_adds_up_witness :
  (3 = 1 + 2)%nat
  /\ List.length [ mkFailedEntry (Some "TC-2") (Some "Search closes")
                                 "Missing title or steps";
                   mkFailedEntry (Some "TC-3") (Some "Search clears")
                                 "Request failed with status code 500" ] = 2%nat
  /\ exit_code (main onceRemote (sampleRunEnv threeCases) 0%nat).1 = 1%Z.
Proof.
  exact (summary_adds_up onceRemote (sampleRunEnv threeCases) 0%nat
           (mkSummary 3 1 2
              [ mkFailedEntry (Some "TC-2") (Some "Search closes")
                              "Missing title or steps";
                mkFailedEntry (Some "TC-3") (Some "Search clears")
                              "Request failed with status code 500" ])
           ltac:(vm_compute; reflexivity)).
Defined.

Lemma setup_failure_sends_nothing_witness :
  main onceRemote (mkRunEnv sampleConfigEnv (inl (mkError "Forbidden"))
                            (inr (Some threeCases))) 0%nat
  = (mkExit 1 None, mkClientState 0%nat []).
Proof.
  exact (setup_failure_sends_nothing onceRemote
           (mkRunEnv sampleConfigEnv (inl (mkError "Forbidden")) (inr (Some threeCases)))
           0%nat
           ltac:(intros testCases (_ & (pat & Hp) & _); discriminate Hp)).
Defined.


Section LoopComposition.
Context {W : Type} (R : Remote W).

(** X13. The loop over a concatenated list is the loop over the first
    part, which ends normally, followed by the loop over the second part
    from the tally and the client state that the first part left. *)
Theorem forTestCases_app (l1 l2 : list TestCase) (t : Tally) (st : ClientState W) :
  exists t1 st1,
    forTestCases R l1 t st = (inr t1, st1)
    /\ forTestCases R (l1 ++ l2) t st = forTestCases R l2 t1 st1.
Proof.
  revert t st. induction l1 as [|tc l1 IH]; intros t st.
  - exists t, st. now split.
  - simpl forTestCases. unfold bind.
    destruct (processTestCase_returns R tc t st) as (t' & st' & ->).
    apply IH.
Qed.

(** Invalid definitions leave no trace in the client state. *)
Lemma forTestCases_validOnes (testCases : list TestCase) (ta tb : Tally)
    (st : ClientState W) :
  successCount ta = successCount tb ->
  exists ta' tb' st',
    forTestCases R testCases ta st = (inr ta', st')
    /\ forTestCases R (validOnes testCases) tb st = (inr tb', st')
    /\ successCount ta' = successCount tb'.
Proof.
  revert ta tb st. induction testCases as [|tc rest IH]; intros ta tb st Hsc.
  - exists ta, tb, st. now repeat split.
  - unfold validOnes. cbn [List.filter forTestCases]. unfold bind at 1.
    rewrite processTestCase_specStep.
    destruct (specStep R tc (world st)) as [[r cs] w1] eqn:E.
    destruct (specStep_cases R tc _ _ _ _ E)
      as [(V & Hr & ->) | [(V & Hr & Hcs) | [(V & Hr & wid & Hcs) | (V & Hr & wid & Hcs)]]];
      rewrite V; cbn [negb].
    + assert (Ew : w1 = world st)
        by (unfold specStep in E; rewrite V in E; now injection E).
      subst w1. rewrite app_nil_r. destruct st as [w cs0]. cbn [world calls].
      apply IH. now destruct r.
    + cbn [forTestCases]. unfold bind at 1. rewrite processTestCase_specStep, E.
      apply IH. destruct r; try discriminate Hr; exact Hsc.
    + cbn [forTestCases]. unfold bind at 1. rewrite processTestCase_specStep, E.
      apply IH. destruct r; try discriminate Hr; exact Hsc.
    + cbn [forTestCases]. unfold bind at 1. rewrite processTestCase_specStep, E.
      apply IH. destruct r; try discriminate Hr. cbn. lia.
Qed.

(** X14. Taking the invalid definitions out of the file changes nothing
    for the remote system: the run sends the same requests, leaves the
    same world and reports the same created count. *)
Theorem invalid_definitions_invisible (re : RunEnv) (testCases : list TestCase) (w : W) :
  reachesLoop re testCases ->
  (main R re w).2 = (main R (withTestCases re (validOnes testCases)) w).2
  /\ exists s s', summary (main R re w).1 = Some s
        /\ summary (main R (withTestCases re (validOnes testCases)) w).1 = Some s'
        /\ created s = created s'.
Proof.
  intros Hready.
  assert (Hready' : reachesLoop (withTestCases re (validOnes testCases))
                                (validOnes testCases)).
  { destruct Hready as (Hc & Hp & _). now repeat split. }
  rewrite (main_reachesLoop R re testCases w Hready).
  rewrite (main_reachesLoop R _ (validOnes testCases) w Hready').
  destruct (forTestCases_validOnes testCases tally0 tally0 (mkClientState w []) eq_refl)
    as (ta & tb & st' & -> & -> & Hsc).
  cbn [fst snd summary]. split; [reflexivity |].
  do 2 eexists. split; [reflexivity |]. split; [reflexivity |]. exact Hsc.
Qed.

(** X15. Exit code 0 means that everything in the file was created and
    linked: the run reached the loop, every definition was valid, the
    created count is the total, nothing is listed as failed, and exactly
    two requests were sent for each definition. *)
Theorem exit_zero_everything_linked (re : RunEnv) (w : W) :
  exit_code (main R re w).1 = 0%Z ->
  exists testCases s,
    reachesLoop re testCases
    /\ summary (main R re w).1 = Some s
    /\ created s = List.length testCases /\ failed s = 0%nat /\ listed s = []
    /\ validOnes testCases = testCases
    /\ List.length (calls (main R re w).2) = (2 * List.length testCases)%nat.
Proof.
  intros Hexit.
  destruct (reachesLoop_or_fatal R re w) as [(testCases & Hready) | E];
    [| rewrite E in Hexit; discriminate Hexit].
  destruct (main_summary R re testCases w Hready) as (w' & E). rewrite E in *.
  cbn [fst snd exit_code calls summary] in *.
  destruct (specRun_counts R testCases w) as (_ & Hc & Hs & He & Hall).
  pose proof (countOf_total (specResults R testCases w)) as Htot.
  rewrite specResults_length in Htot.
  destruct (0 <? countOf isSkipped (specResults R testCases w)
                 + countOf isFailed (specResults R testCases w))%nat eqn:Hz;
    [discriminate Hexit |].
  apply Nat.ltb_ge in Hz.
  exists testCases. eexists. split; [exact Hready |]. split; [reflexivity |].
  cbn [created failed listed].
  split; [lia |]. split; [lia |].
  split; [apply length_zero_iff_nil; lia |].
  split; [| apply Hall; lia].
  unfold validOnes in *. apply List.forallb_filter_id.
  pose proof (List.filter_length_le (fun tc => negb (invalid tc)) testCases) as Hfl.
  assert (Hlen : List.length (List.filter (fun tc => negb (invalid tc)) testCases)
                 = List.length testCases) by lia.
  clear -Hlen. induction testCases as [|tc rest IH]; [reflexivity |].
  cbn [List.filter forallb] in *.
  pose proof (List.filter_length_le (fun tc => negb (invalid tc)) rest) as Hle.
  destruct (negb (invalid tc)); cbn [List.length andb] in *; [apply IH; lia | lia].
Qed.

End LoopComposition.

Lemma invalid_definitions_invisible_witness :
  (main onceRemote (sampleRunEnv threeCases) 0%nat).2
  = (main onceRemote (withTestCases (sampleRunEnv threeCases) (validOnes threeCases))
          0%nat).2.
Proof.
  exact (proj1 (invalid_definitions_invisible onceRemote (sampleRunEnv threeCases)
                  threeCases 0%nat (sampleRunEnv_reachesLoop threeCases))).
Defined.

Lemma exit_zero_everything_linked_witness :
  exists testCases s,
    reachesLoop (sampleRunEnv [firstCase; thirdCase]) testCases
    /\ summary (main okRemote (sampleRunEnv [firstCase; thirdCase]) 0%nat).1 = Some s
    /\ created s = List.length testCases /\ failed s = 0%nat /\ listed s = []
    /\ validOnes testCases = testCases
    /\ List.length (calls (main okRemote (sampleRunEnv [firstCase; thirdCase]) 0%nat).2)
       = (2 * List.length testCases)%nat.
Proof.
  exact (exit_zero_everything_linked okRemote (sampleRunEnv [firstCase; thirdCase])
           0%nat ltac:(vm_compute; reflexivity)).
Defined.

(** ** Configuration and initialisation *)

(** The validation loop stops at the first field without a truthy value. *)
Lemma validateFields_first (get : string -> option JsValue) (names : list string)
    (e : Error) :
  validateFields ((fun f => (f, get f)) <$> names) = inl e ->
  exists before f after,
    names = before ++ f :: after
    /\ message e = "Missing required configuration: " +:+ f
    /\ truthy_val (get f) = false
    /\ Forall (fun g => truthy_val (get g) = true) before.
Proof.
  induction names as [|n names IH]; [discriminate |].
  cbn [fmap list_fmap validateFields].
  destruct (truthy_val (get n)) eqn:T; cbn [negb].
  - intros H. destruct (IH H) as (before & f & after & -> & Hm & Hf & Hb).
    exists (n :: before), f, after. repeat split; auto.
  - intros [= <-]. exists [], n, names. repeat split; auto.
Qed.

Lemma validateFields_ok (get : string -> option JsValue) (names : list string) (u : unit) :
  validateFields ((fun f => (f, get f)) <$> names) = inr u ->
  Forall (fun g => truthy_val (get g) = true) names.
Proof.
  induction names as [|n names IH]; [constructor |].
  cbn [fmap list_fmap validateFields].
  destruct (truthy_val (get n)) eqn:T; cbn [negb]; [| discriminate].
  intros H. constructor; auto.
Qed.

(** X16. When the resolver throws, the error tells why: the file was not
    found; or reading the file threw, and that error is passed on; or the
    message names the first of the six fields, in the order keyVaultUrl,
    azureDevOpsPatSecretName, azureDevOpsOrgUrl, azureDevOpsProject,
    azureDevOpsPlanId, azureDevOpsSuiteId, whose value is falsy (missing,
    [null], empty, [0] or [false]), the fields before it being truthy. *)
Theorem loadConfig_names_first_missing (ce : ConfigEnv) (e : Error) :
  _loadConfig ce = inl e ->
  (findup ce "config.json" = None
   /\ message e = "Cannot find the config file config.json")
  \/ (exists p, findup ce "config.json" = Some p /\ file_content ce p = inl e)
  \/ (exists p file before f after,
        findup ce "config.json" = Some p
        /\ file_content ce p = inr file
        /\ requiredNames = before ++ f :: after
        /\ message e = "Missing required configuration: " +:+ f
        /\ truthy_val (nconf_get ce file f) = false
        /\ Forall (fun g => truthy_val (nconf_get ce file g) = true) before).
Proof.
  intros H. destruct (findup ce "config.json") as [p|] eqn:F.
  - right. rewrite (loadConfig_found ce p F) in H.
    destruct (file_content ce p) as [e0 | file] eqn:C.
    { left. exists p. split; [reflexivity | congruence]. }
    right. destruct (validateFields _) as [e' |] eqn:V; [| discriminate H].
    injection H as ->.
    destruct (validateFields_first _ _ _ V) as (before & f & after & Hn & Hm & Hf & Hb).
    exists p, file, before, f, after. repeat split; auto.
  - left. split; [reflexivity |].
    unfold _loadConfig in H. rewrite F in H. now injection H as <-.
Qed.

Lemma loadConfig_names_first_missing_witness :
  (findup partialConfigEnv "config.json" = None
   /\ "Missing required configuration: azureDevOpsProject"
      = "Cannot find the config file config.json")
  \/ (exists p, findup partialConfigEnv "config.json" = Some p
                /\ file_content partialConfigEnv p
                   = inl (mkError "Missing required configuration: azureDevOpsProject"))
  \/ (exists p file before f after,
        findup partialConfigEnv "config.json" = Some p
        /\ file_content partialConfigEnv p = inr file
        /\ requiredNames = before ++ f :: after
        /\ "Missing required configuration: azureDevOpsProject"
           = "Missing required configuration: " +:+ f
        /\ truthy_val (nconf_get partialConfigEnv file f) = false
        /\ Forall (fun g => truthy_val (nconf_get partialConfigEnv file g) = true) before).
Proof.
  exact (loadConfig_names_first_missing partialConfigEnv
           (mkError "Missing required configuration: azureDevOpsProject")
           ltac:(vm_compute; reflexivity)).
Defined.

(** X17. When [initialize] succeeds, the token it took from the secret
    store is not empty, each of the six configuration fields has a value
    that is truthy (so neither missing nor the empty string), and the
    client state is as it was. *)
Theorem initialize_ready {W : Type} (re : RunEnv) (st st' : ClientState W)
    (cfg : Config) (pat : string) :
  initialize re st = (inr (cfg, pat), st') ->
  st' = st
  /\ pat <> "" /\ secret re = inr (Some pat)
  /\ _loadConfig (config_env re) = inr cfg
  /\ Forall (fun fv => exists v, fv.2 = Some v /\ v <> JStr ""
                                 /\ truthy_val (Some v) = true) (entries cfg).
Proof.
  unfold initialize.
  destruct (_loadConfig (config_env re)) as [e | cfg'] eqn:C; [discriminate |].
  destruct (_fetchSecrets re) as [e | pat'] eqn:S; [discriminate |].
  intros [= <- <- <-]. split; [reflexivity |].
  unfold _fetchSecrets in S. destruct (secret re) as [e | [[|a q]|]]; try discriminate S.
  cbn in S. injection S as <-.
  split; [discriminate |]. split; [reflexivity |]. split; [reflexivity |].
  destruct (findup (config_env re) "config.json") as [p|] eqn:F.
  - rewrite (loadConfig_found _ p F) in C.
    destruct (file_content (config_env re) p) as [e0 | file]; [discriminate C |].
    destruct (validateFields _) as [e | u] eqn:V; [discriminate C |].
    injection C as <-.
    apply validateFields_ok in V.
    change (Forall (fun fv => exists v, fv.2 = Some v /\ v <> JStr ""
                                       /\ truthy_val (Some v) = true)
              ((fun f => (f, nconf_get (config_env re) file f)) <$> requiredNames)).
    apply Forall_fmap. eapply Forall_impl; [exact V |].
    intros g Hg. change (truthy_val (nconf_get (config_env re) file g) = true) in Hg.
    unfold compose. cbn [snd].
    destruct (nconf_get (config_env re) file g) as [v|]; [| discriminate Hg].
    exists v. split; [reflexivity |]. split; [| exact Hg].
    intros ->. discriminate Hg.
  - unfold _loadConfig in C. rewrite F in C. discriminate C.
Qed.

Lemma initialize_ready_witness :
  mkClientState 5%nat [] = mkClientState 5%nat []
  /\ "token" <> "" /\ secret (sampleRunEnv []) = inr (Some "token")
  /\ _loadConfig (config_env (sampleRunEnv [])) = inr sampleConfig
  /\ Forall (fun fv => exists v, fv.2 = Some v /\ v <> JStr ""
                                 /\ truthy_val (Some v) = true) (entries sampleConfig).
Proof.
  exact (initialize_ready (sampleRunEnv []) (mkClientState 5%nat [])
           (mkClientState 5%nat []) _ "token" ltac:(vm_compute; reflexivity)).
Defined.

(** ** More on the retry helper *)

Section RetryFacts.
Import Helpers.
Context {W T : Type} (action : W -> (Error + T) * W) (sleep : Z -> W -> W).

Lemma totalWait_app (a b : list (RetryEvent T)) :
  totalWait (a ++ b) = (totalWait a + totalWait b)%Z.
Proof.
  induction a as [|[r | d] a IH]; cbn [app totalWait]; [reflexivity | exact IH | lia].
Qed.

Lemma waits_app (a b : list (RetryEvent T)) : waits (a ++ b) = (waits a + waits b)%nat.
Proof. unfold waits. now rewrite List.filter_app, length_app. Qed.

Lemma backoff_waits (d : Z) (k : nat) (errors : list Error) :
  totalWait (backoff (T := T) d k errors)
  = (d * 2 ^ Z.of_nat k * (2 ^ Z.of_nat (List.length errors) - 1))%Z
  /\ waits (backoff (T := T) d k errors) = List.length errors.
Proof.
  revert k. induction errors as [|e errors IH]; intros k.
  - split; [cbn; lia | reflexivity].
  - destruct (IH (S k)) as (IHt & IHw).
    split.
    + cbn [backoff totalWait List.length]. rewrite IHt.
      rewrite !Nat2Z.inj_succ, !Z.pow_succ_r by lia. ring.
    + unfold waits in *. cbn [backoff List.filter List.length]. now rewrite IHw.
Qed.

(** Each attempt recorded in a consistent trace is an outcome of the
    action. *)
Lemma consistent_outcomes (w w' : W) (tr : list (RetryEvent T)) :
  consistent action sleep w tr w' ->
  Forall (fun ev => match ev with
                    | Attempt r => exists w0, (action w0).1 = r
                    | Wait _ => True
                    end) tr.
Proof.
  revert w. induction tr as [|[r | d] tr IH]; intros w H; cbn [consistent] in H.
  - constructor.
  - destruct H as [Hr H]. constructor; [eauto | eauto].
  - constructor; [trivial | eauto].
Qed.

(** The shapes of [retryLoop_from], for a whole call. *)
Lemma retryAction_shapes (maxRetries initialDelay : option Z) (w : W) :
  exists res w' tr,
    retryAction action sleep maxRetries initialDelay w = Some (res, w', tr)
    /\ consistent action sleep w tr w'
    /\ ((exists errors v,
           (Z.of_nat (List.length errors) < default 3%Z maxRetries)%Z
           /\ tr = backoff (default 1000%Z initialDelay) 0 errors ++ [Attempt (inr v)]
           /\ res = Returned v)
        \/ (exists errors e,
              (Z.of_nat (List.length errors) + 1 = default 3%Z maxRetries)%Z
              /\ tr = backoff (default 1000%Z initialDelay) 0 errors ++ [Attempt (inl e)]
              /\ res = Rethrown (Some e))
        \/ ((default 3%Z maxRetries <= 0)%Z /\ tr = [] /\ res = Rethrown None)).
Proof.
  unfold retryAction.
  set (n := default 3%Z maxRetries). set (d := default 1000%Z initialDelay).
  destruct (retryLoop_from action sleep n d (S (Z.to_nat n)) 0 None w [])
    as (res & w' & tr & Hrun & Hcons & Hshape); [simpl; lia |].
  exists res, w', tr. simpl in Hrun. split; [exact Hrun |]. split; [exact Hcons |].
  simpl Z.of_nat in Hshape. rewrite Z.sub_0_r in Hshape. exact Hshape.
Qed.

(** X18. However a call of [retryAction] ends, it has paused once less
    than it has invoked the action (not at all if it never invoked it),
    and the pauses add up to [initialDelay * (2^(attempts - 1) - 1)]
    milliseconds. *)
Theorem retryAction_total_wait (maxRetries initialDelay : option Z) (w w' : W)
    (res : RetryResult T) (tr : list (RetryEvent T)) :
  retryAction action sleep maxRetries initialDelay w = Some (res, w', tr) ->
  waits tr = (attempts tr - 1)%nat
  /\ totalWait tr
     = (default 1000%Z initialDelay * (2 ^ Z.of_nat (attempts tr - 1) - 1))%Z.
Proof.
  intros Hrun.
  destruct (retryAction_shapes maxRetries initialDelay w)
    as (res0 & w0 & tr0 & Hrun0 & _ & Hshape).
  rewrite Hrun in Hrun0. injection Hrun0 as <- <- <-.
  destruct Hshape as [(errors & v & _ & -> & _)
                     | [(errors & e & _ & -> & _) | (_ & -> & _)]].
  - rewrite waits_app, totalWait_app, attempts_app, attempts_backoff.
    destruct (backoff_waits (default 1000%Z initialDelay) 0 errors) as (-> & ->).
    unfold waits, attempts. cbn [List.filter List.length totalWait].
    replace (List.length errors + 1 - 1)%nat with (List.length errors) by lia.
    split; [lia |]. cbn [Z.of_nat]. rewrite Z.pow_0_r. ring.
  - rewrite waits_app, totalWait_app, attempts_app, attempts_backoff.
    destruct (backoff_waits (default 1000%Z initialDelay) 0 errors) as (-> & ->).
    unfold waits, attempts. cbn [List.filter List.length totalWait].
    replace (List.length errors + 1 - 1)%nat with (List.length errors) by lia.
    split; [lia |]. cbn [Z.of_nat]. rewrite Z.pow_0_r. ring.
  - split; [reflexivity |]. unfold attempts.
    cbn [List.filter List.length Nat.sub Z.of_nat totalWait]. rewrite Z.pow_0_r. ring.
Qed.

(** X19. With [maxRetries] zero or negative the action is never invoked,
    not even one that would succeed: the call throws [undefined] and leaves
    the world as it was. *)
Theorem retryAction_no_budget (maxRetries initialDelay : option Z) (w : W) :
  (default 3%Z maxRetries <= 0)%Z ->
  retryAction action sleep maxRetries initialDelay w = Some (Rethrown None, w, []).
Proof.
  intros Hle. unfold retryAction. cbn [retryLoop].
  destruct (0 <? default 3%Z maxRetries)%Z eqn:G; [apply Z.ltb_lt in G; lia | reflexivity].
Qed.

(** X20. An action that fails whenever it is invoked is invoked exactly
    [maxRetries] times (for a positive [maxRetries]), with one pause fewer,
    and the call rethrows the error of the last of these invocations: the
    trace agrees with the action and ends with the attempt that failed with
    the rethrown error. *)
Theorem retryAction_persistent_failure (maxRetries initialDelay : option Z) (w : W) :
  (forall w0, exists e, (action w0).1 = inl e) ->
  (0 < default 3%Z maxRetries)%Z ->
  exists e w' tr tr0,
    retryAction action sleep maxRetries initialDelay w = Some (Rethrown (Some e), w', tr)
    /\ consistent action sleep w tr w'
    /\ tr = tr0 ++ [Attempt (inl e)]
    /\ (exists w0, (action w0).1 = inl e)
    /\ attempts tr = Z.to_nat (default 3%Z maxRetries)
    /\ waits tr = (Z.to_nat (default 3%Z maxRetries) - 1)%nat.
Proof.
  intros Hfail Hpos.
  destruct (retryAction_shapes maxRetries initialDelay w)
    as (res & w' & tr & Hrun & Hcons & Hshape).
  pose proof (consistent_outcomes _ _ _ Hcons) as Hout.
  destruct Hshape as [(errors & v & _ & -> & _)
                     | [(errors & e & Hlen & -> & ->) | (Hle & _ & _)]]; [| | lia].
  - apply Forall_app in Hout as [_ Hlast]. apply Forall_inv in Hlast as (w0 & Hw0).
    destruct (Hfail w0) as (e & He). congruence.
  - exists e, w', (backoff (default 1000%Z initialDelay) 0 errors ++ [Attempt (inl e)]),
      (backoff (default 1000%Z initialDelay) 0 errors).
    split; [exact Hrun |]. split; [exact Hcons |]. split; [reflexivity |].
    split; [apply Forall_app in Hout as [_ Hlast]; now apply Forall_inv in Hlast |].
    rewrite attempts_app, attempts_backoff, waits_app.
    destruct (backoff_waits (default 1000%Z initialDelay) 0 errors) as (_ & ->).
    unfold attempts, waits. cbn [List.filter List.length]. split; lia.
Qed.

End RetryFacts.

Lemma retryAction_total_wait_witness :
  Helpers.waits [ Helpers.Attempt (T := nat) (inl (mkError "busy")); Helpers.Wait 1000;
                  Helpers.Attempt (inl (mkError "busy")); Helpers.Wait 2000;
                  Helpers.Attempt (inr 2%nat) ] = 2%nat
  /\ Helpers.totalWait
       [ Helpers.Attempt (T := nat) (inl (mkError "busy")); Helpers.Wait 1000;
         Helpers.Attempt (inl (mkError "busy")); Helpers.Wait 2000;
         Helpers.Attempt (inr 2%nat) ] = 3000%Z.
Proof.
  exact (retryAction_total_wait Helpers.flaky Helpers.idle None None 0%nat 3%nat
           (Helpers.Returned 2%nat) _ eq_refl).
Defined.

Lemma retryAction_no_budget_witness :
  Helpers.retryAction Helpers.flaky Helpers.idle (Some 0%Z) None 5%nat
  = Some (Helpers.Rethrown None, 5%nat, []).
Proof.
  exact (retryAction_no_budget Helpers.flaky Helpers.idle (Some 0%Z) None 5%nat
           ltac:(cbn; lia)).
Defined.

Lemma retryAction_persistent_failure_witness :
  exists e w' tr tr0,
    Helpers.retryAction (T := nat) (fun w : nat => (inl (mkError "down"), S w))
                        Helpers.idle (Some 4%Z) (Some 10%Z) 0%nat
    = Some (Helpers.Rethrown (Some e), w', tr)
    /\ Helpers.consistent (T := nat) (fun w : nat => (inl (mkError "down"), S w))
                          Helpers.idle 0%nat tr w'
    /\ tr = tr0 ++ [Helpers.Attempt (inl e)]
    /\ (exists w0 : nat, (@inl Error nat (mkError "down"), S w0).1 = inl e)
    /\ Helpers.attempts tr = Z.to_nat 4 /\ Helpers.waits tr = (Z.to_nat 4 - 1)%nat.
Proof.
  exact (retryAction_persistent_failure (T := nat)
           (fun w : nat => (inl (mkError "down"), S w)) Helpers.idle
           (Some 4%Z) (Some 10%Z) 0%nat
           (fun w0 => ex_intro _ (mkError "down") eq_refl) ltac:(cbn; lia)).
Defined.

(** ** Time stamps and random strings *)

Example formatTestDate_iso :
  Helpers.formatTestDate "2026-11-02T10:20:30.456Z" = "2026-11-02T10-20-30-456Z".
Proof. reflexivity. Qed.

(** X21. The time stamp that [formatTestDate] makes of the ISO string has
    the same length, holds no colon and no full stop, and differs from the
    ISO string only where one of those stood, where it has a hyphen;
    formatting it again changes nothing. *)
Theorem formatTestDate_file_name_safe (iso : string) :
  String.length (Helpers.formatTestDate iso) = String.length iso
  /\ countChar ":" (Helpers.formatTestDate iso) = 0%nat
  /\ countChar "." (Helpers.formatTestDate iso) = 0%nat
  /\ (forall n : nat,
        String.get n (Helpers.formatTestDate iso)
        = (fun c => if Ascii.eqb c ":" || Ascii.eqb c "." then "-"%char else c)
            <$> String.get n iso)
  /\ Helpers.formatTestDate (Helpers.formatTestDate iso) = Helpers.formatTestDate iso.
Proof.
  unfold Helpers.formatTestDate.
  induction iso as [|c iso (IHl & IHc & IHd & IHg & IHi)].
  - repeat split.
  - cbn [Helpers.replaceClass].
    destruct (Ascii.eqb c ":" || Ascii.eqb c ".") eqn:E.
    + change ("-" +:+ ?x) with (String "-" x).
      cbn [String.length countChar Helpers.replaceClass Ascii.eqb Bool.eqb orb andb].
      split; [now rewrite IHl |]. split; [now rewrite IHc |]. split; [now rewrite IHd |].
      split; [| now rewrite IHi].
      intros [|n]; cbn [String.get]; [| apply IHg].
      cbn. now rewrite E.
    + apply orb_false_elim in E as [Ec Ed].
      cbn [String.length countChar Helpers.replaceClass]. cbn beta.
      rewrite Ec, Ed. cbn [orb Nat.add].
      split; [now rewrite IHl |]. split; [exact IHc |]. split; [exact IHd |].
      split; [| now rewrite IHi].
      intros [|n]; cbn [String.get]; [| apply IHg].
      cbn. now rewrite Ec, Ed.
Qed.

Lemma all_chars_append (p : ascii -> bool) (a b : string) :
  all_chars p (a +:+ b) = all_chars p a && all_chars p b.
Proof. induction a as [|c a IH]; simpl; [reflexivity | now rewrite IH, andb_assoc]. Qed.

Lemma get_all_chars (p : ascii -> bool) (s : string) (n : nat) (c : ascii) :
  all_chars p s = true -> String.get n s = Some c -> p c = true.
Proof.
  revert n. induction s as [|a s IH]; intros n Hall Hget; [discriminate Hget |].
  simpl in Hall. apply andb_prop in Hall as [Ha Hs].
  destruct n; simpl in Hget; [now injection Hget as <- | eauto].
Qed.

Lemma get_in_range (s : string) (n : nat) :
  (n < String.length s)%nat -> exists c, String.get n s = Some c.
Proof.
  revert n. induction s as [|a s IH]; intros n Hn; simpl in Hn; [lia |].
  destruct n; simpl; [eauto | apply IH; lia].
Qed.

(** One step of the loop appends nothing or one letter or digit. *)
Lemma charAt_chars (k : Z) :
  all_chars is_alnum (Helpers.charAt Helpers.chars k) = true
  /\ (String.length (Helpers.charAt Helpers.chars k) <= 1)%nat
  /\ ((0 <= k < 62)%Z -> String.length (Helpers.charAt Helpers.chars k) = 1%nat).
Proof.
  unfold Helpers.charAt. destruct (k <? 0)%Z eqn:Hneg.
  - apply Z.ltb_lt in Hneg. repeat split; simpl; lia.
  - apply Z.ltb_ge in Hneg.
    destruct (String.get (Z.to_nat k) Helpers.chars) as [c|] eqn:G.
    + assert (Hc : is_alnum c = true)
        by (eapply get_all_chars; [| exact G]; vm_compute; reflexivity).
      cbn [all_chars String.length]. rewrite Hc. repeat split; auto.
    + repeat split; simpl; try lia. intros Hk.
      destruct (get_in_range Helpers.chars (Z.to_nat k)) as (c & Hc);
        [change (String.length Helpers.chars) with 62%nat; lia | congruence].
Qed.

Lemma generateLoop_result {W : Type} (draw : W -> Z * W) (n : nat) (acc : string) (w : W) :
  exists suffix,
    (Helpers.generateLoop draw n acc w).1 = acc +:+ suffix
    /\ all_chars is_alnum suffix = true
    /\ (String.length suffix <= n)%nat
    /\ ((forall w0, (0 <= (draw w0).1 < 62)%Z) -> String.length suffix = n).
Proof.
  revert acc w. induction n as [|n IH]; intros acc w.
  - exists "". cbn [Helpers.generateLoop fst]. rewrite append_empty_r. repeat split; auto.
  - cbn [Helpers.generateLoop]. destruct (draw w) as [k w1] eqn:D.
    destruct (IH (acc +:+ Helpers.charAt Helpers.chars k) w1)
      as (suffix & -> & Hall & Hle & Hex).
    destruct (charAt_chars k) as (Ha & Hl & He).
    exists (Helpers.charAt Helpers.chars k +:+ suffix).
    rewrite append_assoc, all_chars_append, length_append, Ha, Hall.
    repeat split; [lia |]. intros Hrange. rewrite (Hex Hrange), He; [lia |].
    specialize (Hrange w). now rewrite D in Hrange.
Qed.

(** X22. Whatever indices are drawn, [generateRandomString] returns only
    letters and digits and at most [length] of them (none for a [length]
    of zero or less); when every index drawn is in the range of the
    alphabet, as [Math.floor(Math.random() * 62)] is, the string has
    exactly [length] characters. *)
Theorem generateRandomString_alphabet {W : Type} (draw : W -> Z * W) (length : Z) (w : W) :
  all_chars is_alnum (Helpers.generateRandomString draw length w).1 = true
  /\ (String.length (Helpers.generateRandomString draw length w).1
      <= Z.to_nat length)%nat
  /\ ((forall w0, (0 <= (draw w0).1 < 62)%Z) ->
      String.length (Helpers.generateRandomString draw length w).1 = Z.to_nat length).
Proof.
  unfold Helpers.generateRandomString.
  destruct (generateLoop_result draw (Z.to_nat length) "" w)
    as (suffix & -> & Hall & Hle & Hex).
  change ("" +:+ suffix) with suffix. auto.
Qed.

Lemma generateRandomString_alphabet_witness :
  String.length (Helpers.generateRandomString Helpers.stepping 8%Z 40%Z).1 = Z.to_nat 8.
Proof.
  exact (proj2 (proj2 (generateRandomString_alphabet Helpers.stepping 8%Z 40%Z))
           (fun w0 => Z.mod_pos_bound w0 62 eq_refl)).
Defined.

Example generateRandomString_stepping :
  (Helpers.generateRandomString Helpers.stepping 8%Z 40%Z).1 = "ov29GNUb".
Proof. vm_compute. reflexivity. Qed.

Lemma formatTestDate_no_colon (iso : string) :
  countChar ":" (Helpers.formatTestDate iso) = 0%nat.
Proof.
  unfold Helpers.formatTestDate. induction iso as [|c iso IH]; [reflexivity |].
  cbn [Helpers.replaceClass]. destruct (Ascii.eqb c ":") eqn:Ec; cbn [orb].
  - exact IH.
  - destruct (Ascii.eqb c "."); cbn [countChar String.append]; [exact IH |].
    now rewrite Ec, IH.
Qed.

(** X23. The screenshot path has a colon only where the given name has
    one: the time stamp and the fixed parts of the path add none. *)
Theorem screenshotPath_colons (name iso : string) :
  countChar ":" (Helpers.screenshotPath name iso) = countChar ":" name.
Proof.
  unfold Helpers.screenshotPath.
  rewrite !countChar_append, formatTestDate_no_colon. cbn. lia.
Qed.
